(** * OpenEdge: the native edge-detection bridge

    A shallow embedding of [app/src/main/cpp/edge_detection.cpp].  The
    function [Java_com_openedge_processing_EdgeDetection_nativeProcessFrame]
    borrows two Java arrays through JNI, runs five OpenCV operations on the
    frame and re-encodes the result into the caller's [int[]].

    - machine integers ([jint], C++ [int]) are [Z] with the 32-bit
      two's-complement wrap-around written out;
    - bytes are [Byte.byte], matrices are records holding their bytes;
    - the JNI environment is an explicit state threaded through a small
      state/exception monad whose third outcome is undefined behaviour
      (an access outside a buffer);
    - the four OpenCV operations that compute pixel values are an interface
      ([ImgProc]): their results are whatever the linked library returns.
      The channel expansion [COLOR_GRAY2RGBA] is written out, since the
      wrapper's loop depends on the bytes it produces. *)

From Stdlib Require Import ZArith List Lia QArith.
From Stdlib Require Import Strings.String Strings.Byte.
From stdpp Require Import base tactics option list.

Local Open Scope Z_scope.

(* ===================================================================== *)
(** ** 32-bit machine integers *)
(* ===================================================================== *)

Module Jint.

(** Reduction of an integer to the signed 32-bit range. *)
Definition wrap (z : Z) : Z := (z + 2 ^ 31) mod 2 ^ 32 - 2 ^ 31.

Definition in_range (z : Z) : Prop := - 2 ^ 31 <= z < 2 ^ 31.

Definition add (a b : Z) : Z := wrap (a + b).
Definition mul (a b : Z) : Z := wrap (a * b).
(** C++ integer division truncates towards zero. *)
Definition div (a b : Z) : Z := wrap (a ÷ b).

(** The value of four bytes read as one little-endian [int]. *)
Definition of_bytes_le (b0 b1 b2 b3 : byte) : Z :=
  wrap (Z.of_N (Byte.to_N b0)
        + 2 ^ 8 * Z.of_N (Byte.to_N b1)
        + 2 ^ 16 * Z.of_N (Byte.to_N b2)
        + 2 ^ 24 * Z.of_N (Byte.to_N b3)).

End Jint.

(** The two literals the loop stores, as the [jint] they convert to. *)
Definition WHITE : Z := Jint.wrap 0xFFFFFFFF.
Definition BLACK : Z := Jint.wrap 0xFF000000.

(* ===================================================================== *)
(** ** Matrices and the image-processing library *)
(* ===================================================================== *)

Inductive MatType := CV_8UC1 | CV_8UC3 | CV_8UC4.

Definition channels (t : MatType) : Z :=
  match t with CV_8UC1 => 1 | CV_8UC3 => 3 | CV_8UC4 => 4 end.

#[global] Instance MatType_eq_dec : EqDecision MatType.
Proof. solve_decision. Defined.

Record Mat := mkMat {
  mat_rows : Z;
  mat_cols : Z;
  mat_type : MatType;
  mat_data : list byte
}.

Definition mat_total (m : Mat) : Z := mat_rows m * mat_cols m.

(** [Mat::empty()]. *)
Definition mat_empty (m : Mat) : bool := mat_total m =? 0.

(** [Mat(rows, cols, type, data)]: a header over memory the caller owns.
    The matrix stands for the [rows*cols*channels] bytes at [data]; when the
    buffer behind the pointer is shorter, or a dimension is negative, the
    header describes memory that is not there. *)
Definition Mat_over (rows cols : Z) (t : MatType) (buf : list byte) : option Mat :=
  if rows * cols =? 0 then Some (mkMat rows cols t [])
  else if (0 <? rows) && (0 <? cols)
          && (rows * cols * channels t <=? Z.of_nat (length buf))
  then Some (mkMat rows cols t (take (Z.to_nat (rows * cols * channels t)) buf))
  else None.

Inductive exn :=
| CvException (what : string)
| OtherException.

(** The result of a library call: a value or a C++ exception. *)
Inductive cv (A : Type) :=
| Ok (a : A)
| Throw (e : exn).
Arguments Ok {A} a.
Arguments Throw {A} e.

Inductive ColorConversionCode :=
| COLOR_YUV2BGR_NV21
| COLOR_BGR2GRAY
| COLOR_GRAY2RGBA.

Record Size := mkSize { size_width : Z; size_height : Z }.

(** [double] arguments are exact rationals. *)
Definition double := Q.

(** The operations of the linked image-processing library whose pixel
    arithmetic is not part of this repository. *)
Class ImgProc := {
  yuv2bgr_nv21 : Mat -> cv Mat;
  bgr2gray : Mat -> cv Mat;
  gaussian_blur : Mat -> Size -> double -> cv Mat;
  canny : Mat -> double -> double -> cv Mat
}.

(** [COLOR_GRAY2RGBA] on an 8-bit image: every gray byte [g] becomes the
    four bytes [g, g, g, 255] (the alpha channel is set to its maximum).
    A source that is empty or not single-channel is rejected. *)
Definition expand_gray (g : byte) : list byte := [g; g; g; xff].

Definition gray2rgba (src : Mat) : cv Mat :=
  if mat_empty src then Throw (CvException "!_src.empty()")
  else if decide (mat_type src = CV_8UC1)
  then Ok (mkMat (mat_rows src) (mat_cols src) CV_8UC4
                 (flat_map expand_gray (mat_data src)))
  else Throw (CvException "scn == 1").

Definition cvtColor_pure `{lib : ImgProc} (src : Mat) (code : ColorConversionCode) : cv Mat :=
  match code with
  | COLOR_YUV2BGR_NV21 => yuv2bgr_nv21 src
  | COLOR_BGR2GRAY => bgr2gray src
  | COLOR_GRAY2RGBA => gray2rgba src
  end.

(** [rgbaData[i]] for [int* rgbaData = (int* )m.data]: bytes [4i .. 4i+3],
    least significant first (every Android ABI is little-endian). *)
Definition read_int (d : list byte) (i : nat) : option Z :=
  match d !! (4 * i)%nat, d !! (4 * i + 1)%nat,
        d !! (4 * i + 2)%nat, d !! (4 * i + 3)%nat with
  | Some b0, Some b1, Some b2, Some b3 => Some (Jint.of_bytes_le b0 b1 b2 b3)
  | _, _, _, _ => None
  end.

(* ===================================================================== *)
(** ** The JNI environment *)
(* ===================================================================== *)

(** How the virtual machine answers a [Get<Type>ArrayElements] request: it
    fails (the call returns [NULL]), it pins the array and hands out a
    pointer into it, or it hands out a native copy. *)
Inductive service := Unavailable | Pin | Duplicate.

(** A pointer returned by [Get<Type>ArrayElements]. *)
Inductive elems := Null | Direct | Copied.

Definition is_null (p : elems) : bool :=
  match p with Null => true | _ => false end.

Inductive resource := ByteElems | IntElems.

Inductive release_mode := MODE_0 | JNI_COMMIT | JNI_ABORT.

#[global] Instance resource_eq_dec : EqDecision resource.
Proof. solve_decision. Defined.

Inductive cv_call :=
| CallCvtColor (code : ColorConversionCode)
| CallGaussianBlur (ksize : Size) (sigmaX : double)
| CallCanny (threshold1 threshold2 : double).

Inductive event :=
| EvCv (c : cv_call)
| EvRelease (r : resource) (mode : release_mode)
| EvLogE (msg : string).

Record jni := mkJni {
  yuvData : list byte;        (** contents of the Java [byte[]] *)
  outputBuffer : list Z;      (** contents of the Java [int[]] *)
  serve_bytes : service;      (** the VM's answer for the [byte[]] *)
  serve_ints : service;       (** the VM's answer for the [int[]] *)
  yuv_copy : list byte;       (** native copy of the [byte[]], if handed out *)
  out_copy : list Z;          (** native copy of the [int[]], if handed out *)
  held : list resource;       (** element views acquired and not yet released *)
  trace : list event          (** library calls, releases and error logs so far *)
}.

Definition set_yuvData (v : list byte) (s : jni) : jni :=
  mkJni v (outputBuffer s) (serve_bytes s) (serve_ints s)
        (yuv_copy s) (out_copy s) (held s) (trace s).
Definition set_outputBuffer (v : list Z) (s : jni) : jni :=
  mkJni (yuvData s) v (serve_bytes s) (serve_ints s)
        (yuv_copy s) (out_copy s) (held s) (trace s).
Definition set_yuv_copy (v : list byte) (s : jni) : jni :=
  mkJni (yuvData s) (outputBuffer s) (serve_bytes s) (serve_ints s)
        v (out_copy s) (held s) (trace s).
Definition set_out_copy (v : list Z) (s : jni) : jni :=
  mkJni (yuvData s) (outputBuffer s) (serve_bytes s) (serve_ints s)
        (yuv_copy s) v (held s) (trace s).
Definition set_held (v : list resource) (s : jni) : jni :=
  mkJni (yuvData s) (outputBuffer s) (serve_bytes s) (serve_ints s)
        (yuv_copy s) (out_copy s) v (trace s).
Definition log (e : event) (s : jni) : jni :=
  mkJni (yuvData s) (outputBuffer s) (serve_bytes s) (serve_ints s)
        (yuv_copy s) (out_copy s) (held s) (trace s ++ [e]).

(** Removes the first occurrence of [r]. *)
Fixpoint drop_one (r : resource) (l : list resource) : list resource :=
  match l with
  | [] => []
  | x :: l' => if decide (x = r) then l' else x :: drop_one r l'
  end.

(** *** The monad: state, C++ exceptions, undefined behaviour *)

Inductive res (A : Type) :=
| Val (a : A) (s : jni)
| Exc (e : exn) (s : jni)
| Undefined.
Arguments Val {A} a s.
Arguments Exc {A} e s.
Arguments Undefined {A}.

Definition M (A : Type) : Type := jni -> res A.

Definition ret {A} (a : A) : M A := fun s => Val a s.

Definition bind {A B} (m : M A) (k : A -> M B) : M B :=
  fun s => match m s with
           | Val a s' => k a s'
           | Exc e s' => Exc e s'
           | Undefined => Undefined
           end.

Definition try_catch {A} (body : M A) (handler : exn -> M A) : M A :=
  fun s => match body s with
           | Exc e s' => handler e s'
           | r => r
           end.

Definition undefined {A} : M A := fun _ => Undefined.

Declare Scope jni_scope.
Delimit Scope jni_scope with jni.
Notation "x <- m ;; k" := (bind m (fun x => k))
  (at level 100, m at next level, right associativity) : jni_scope.
Notation "m ;;; k" := (bind m (fun _ => k))
  (at level 100, right associativity) : jni_scope.

(** *** JNI functions *)

Definition GetByteArrayElements : M elems := fun s =>
  match serve_bytes s with
  | Unavailable => Val Null s
  | Pin => Val Direct (set_held (ByteElems :: held s) s)
  | Duplicate =>
      Val Copied (set_held (ByteElems :: held s) (set_yuv_copy (yuvData s) s))
  end.

Definition GetIntArrayElements : M elems := fun s =>
  match serve_ints s with
  | Unavailable => Val Null s
  | Pin => Val Direct (set_held (IntElems :: held s) s)
  | Duplicate =>
      Val Copied (set_held (IntElems :: held s) (set_out_copy (outputBuffer s) s))
  end.

(** Mode [0] and [JNI_COMMIT] copy a native copy back into the array;
    [JNI_ABORT] does not.  A pinned array needs no copying: stores through
    the pointer already went to it. *)
Definition commits (mode : release_mode) : bool :=
  match mode with JNI_ABORT => false | _ => true end.

Definition frees (mode : release_mode) : bool :=
  match mode with JNI_COMMIT => false | _ => true end.

Definition ReleaseByteArrayElements (p : elems) (mode : release_mode) : M unit :=
  fun s =>
    match p with
    | Null => Undefined
    | _ =>
        let s1 := match p with
                  | Copied => if commits mode then set_yuvData (yuv_copy s) s else s
                  | _ => s
                  end in
        let s2 := if frees mode then set_held (drop_one ByteElems (held s1)) s1 else s1 in
        Val tt (log (EvRelease ByteElems mode) s2)
    end.

Definition ReleaseIntArrayElements (p : elems) (mode : release_mode) : M unit :=
  fun s =>
    match p with
    | Null => Undefined
    | _ =>
        let s1 := match p with
                  | Copied => if commits mode then set_outputBuffer (out_copy s) s else s
                  | _ => s
                  end in
        let s2 := if frees mode then set_held (drop_one IntElems (held s1)) s1 else s1 in
        Val tt (log (EvRelease IntElems mode) s2)
    end.

Definition LOGE (msg : string) : M unit := fun s => Val tt (log (EvLogE msg) s).

(** *** Memory behind the two pointers *)

Definition bytes_at (p : elems) (s : jni) : option (list byte) :=
  match p with
  | Null => None
  | Direct => Some (yuvData s)
  | Copied => Some (yuv_copy s)
  end.

Definition ints_at (p : elems) (s : jni) : option (list Z) :=
  match p with
  | Null => None
  | Direct => Some (outputBuffer s)
  | Copied => Some (out_copy s)
  end.

Definition set_ints_at (p : elems) (v : list Z) (s : jni) : jni :=
  match p with
  | Null => s
  | Direct => set_outputBuffer v s
  | Copied => set_out_copy v s
  end.

(** [outPixels[i] = v]: a store outside the array is undefined. *)
Definition store_int (p : elems) (i : nat) (v : Z) : M unit := fun s =>
  match ints_at p s with
  | Some a => if decide (i < length a)%nat
              then Val tt (set_ints_at p (<[i := v]> a) s)
              else Undefined
  | None => Undefined
  end.

(** [rgbaData[i]]: a load outside the matrix data is undefined. *)
Definition load_int (d : list byte) (i : nat) : M Z := fun s =>
  match read_int d i with
  | Some v => Val v s
  | None => Undefined
  end.

(** *** Library calls inside the monad *)

Definition invoke (c : cv_call) (r : cv Mat) : M Mat := fun s =>
  match r with
  | Ok m => Val m (log (EvCv c) s)
  | Throw e => Exc e (log (EvCv c) s)
  end.

(** The constructor itself reads nothing; the bytes are read by the library
    call that is handed the header.  The model charges the out-of-range
    read to the constructor: a header that the buffer does not cover is
    undefined from here on, also on inputs where the library would reject
    the shape before reading.  Theorems about a call that returns are not
    affected; no theorem claims that a call is undefined because of its
    header. *)
Definition Mat_ctor (rows cols : Z) (t : MatType) (p : elems) : M Mat := fun s =>
  match bytes_at p s with
  | Some buf => match Mat_over rows cols t buf with
                | Some m => Val m s
                | None => Undefined
                end
  | None => Undefined
  end.

Section Bridge.

Context `{lib : ImgProc}.

Definition cvtColor (src : Mat) (code : ColorConversionCode) : M Mat :=
  invoke (CallCvtColor code) (cvtColor_pure src code).

Definition GaussianBlur (src : Mat) (ksize : Size) (sigmaX : double) : M Mat :=
  invoke (CallGaussianBlur ksize sigmaX) (gaussian_blur src ksize sigmaX).

Definition Canny (src : Mat) (threshold1 threshold2 : double) : M Mat :=
  invoke (CallCanny threshold1 threshold2) (canny src threshold1 threshold2).

Local Open Scope jni_scope.

(** The loop [for (int i = 0; i < pixelCount; i++)], started at [i] with
    [n] iterations left. *)
Fixpoint copy_loop (rgbaData : list byte) (outPixels : elems)
         (i n : nat) : M unit :=
  match n with
  | O => ret tt
  | S n' =>
      pixel <- load_int rgbaData i ;;
      (if pixel >? 0
       then store_int outPixels i WHITE
       else store_int outPixels i BLACK) ;;;
      copy_loop rgbaData outPixels (S i) n'
  end.

(** [Java_com_openedge_processing_EdgeDetection_nativeProcessFrame]. *)
Definition nativeProcessFrame (width height : Z) : M Z :=
  try_catch
    ((* Get input data *)
     yuvBytes <- GetByteArrayElements ;;
     outPixels <- GetIntArrayElements ;;
     if is_null yuvBytes || is_null outPixels then
       LOGE "Failed to get array elements" ;;;
       (if negb (is_null yuvBytes)
        then ReleaseByteArrayElements yuvBytes JNI_ABORT else ret tt) ;;;
       (if negb (is_null outPixels)
        then ReleaseIntArrayElements outPixels JNI_ABORT else ret tt) ;;;
       ret (-1)
     else
       (* Convert YUV to Mat (assuming NV21 format) *)
       yuvMat <- Mat_ctor (Jint.add height (Jint.div height 2)) width
                          CV_8UC1 yuvBytes ;;
       bgrMat <- cvtColor yuvMat COLOR_YUV2BGR_NV21 ;;
       (* Convert to grayscale *)
       grayMat <- cvtColor bgrMat COLOR_BGR2GRAY ;;
       (* Apply Gaussian blur to reduce noise *)
       blurredMat <- GaussianBlur grayMat (mkSize 5 5) (3 # 2)%Q ;;
       (* Canny edge detection with thresholds 50 and 150 *)
       edgesMat <- Canny blurredMat (50 # 1)%Q (150 # 1)%Q ;;
       (* Convert edges to RGBA format *)
       rgbaMat <- cvtColor edgesMat COLOR_GRAY2RGBA ;;
       (* Copy result to output buffer *)
       let rgbaData := mat_data rgbaMat in
       let pixelCount := Jint.mul width height in
       copy_loop rgbaData outPixels 0 (Z.to_nat pixelCount) ;;;
       (* Release resources *)
       ReleaseByteArrayElements yuvBytes JNI_ABORT ;;;
       ReleaseIntArrayElements outPixels MODE_0 ;;;
       ret 0)
    (fun e =>
       match e with
       | CvException what =>
           LOGE ("OpenCV exception: " ++ what) ;;; ret (-1)
       | OtherException =>
           LOGE "Unknown exception in edge detection" ;;; ret (-1)
       end).

End Bridge.

(* ===================================================================== *)
(** ** A small library instance and concrete frames *)
(* ===================================================================== *)

(** The theorems below hold for every [ImgProc].  To run the bridge on a
    concrete frame some instance is needed; this one keeps the argument
    checks of the operations (a colour conversion rejects an empty source, a
    source of the wrong channel count, and, for the NV21 layout, an odd width
    or a row count that is not a multiple of three) and replaces their pixel
    arithmetic by the simplest functions of the same shape: luma is copied
    into the three colour channels, gray is the middle channel, the blur is
    the identity, and the detector marks a pixel whose right neighbour in the
    row differs from it by at least the high threshold. *)
Module Plain.

Definition luma (b : byte) : Z := Z.of_N (Byte.to_N b).

Definition nv21 (m : Mat) : cv Mat :=
  if mat_empty m then Throw (CvException "!_src.empty()")
  else if negb (bool_decide (mat_type m = CV_8UC1))
          || negb (Z.even (mat_cols m))
          || negb (mat_rows m mod 3 =? 0)
  then Throw (CvException "sz.width % 2 == 0 && sz.height % 3 == 0")
  else
    let h := mat_rows m * 2 / 3 in
    Ok (mkMat h (mat_cols m) CV_8UC3
              (flat_map (fun y => [y; y; y])
                        (take (Z.to_nat (h * mat_cols m)) (mat_data m)))).

Fixpoint middle (d : list byte) : list byte :=
  match d with
  | _ :: g :: _ :: d' => g :: middle d'
  | _ => []
  end.

Definition gray (m : Mat) : cv Mat :=
  if mat_empty m then Throw (CvException "!_src.empty()")
  else if bool_decide (mat_type m = CV_8UC3)
  then Ok (mkMat (mat_rows m) (mat_cols m) CV_8UC1 (middle (mat_data m)))
  else Throw (CvException "scn == 3 || scn == 4").

Definition blur (m : Mat) (ksize : Size) (sigmaX : double) : cv Mat :=
  if mat_empty m then Throw (CvException "!_src.empty()")
  else if Z.odd (size_width ksize) && Z.odd (size_height ksize)
  then Ok m
  else Throw (CvException "ksize.width % 2 == 1 && ksize.height % 2 == 1").

Definition mark (cols : nat) (hi : double) (d : list byte)
           (i : nat) (y : byte) : byte :=
  match d !! S i with
  | Some y' =>
      if (S i mod cols =? 0)%nat then x00
      else if Qle_bool hi (inject_Z (Z.abs (luma y' - luma y))) then xff
      else x00
  | None => x00
  end.

Definition edges (m : Mat) (threshold1 threshold2 : double) : cv Mat :=
  if mat_empty m then Throw (CvException "!_src.empty()")
  else if bool_decide (mat_type m = CV_8UC1)
  then Ok (mkMat (mat_rows m) (mat_cols m) CV_8UC1
                 (imap (mark (Z.to_nat (mat_cols m)) threshold2 (mat_data m))
                       (mat_data m)))
  else Throw (CvException "_src.depth() == CV_8U").

Definition lib : ImgProc :=
  {| yuv2bgr_nv21 := nv21; bgr2gray := gray;
     gaussian_blur := blur; canny := edges |}.

End Plain.

(** A state in which nothing has happened yet: the two arrays, the way the
    VM will serve them, no view held, an empty trace. *)
Definition fresh_call (frame : list byte) (out : list Z)
           (sb si : service) : jni :=
  mkJni frame out sb si [] [] [] [].

(** The 4x4 step frame: luma 0 on the two left columns and 255 on the two
    right ones, followed by the eight chroma bytes, all 128. *)
Definition step_row : list byte := [x00; x00; xff; xff].
Definition step_frame : list byte :=
  step_row ++ step_row ++ step_row ++ step_row ++ replicate 8 x80.

(** What the four-stage pipeline of [lib] computes from a frame, when every
    stage returns. *)
Definition pipeline `{lib : ImgProc} (yuvMat : Mat) : cv Mat :=
  match yuv2bgr_nv21 yuvMat with
  | Throw e => Throw e
  | Ok bgrMat =>
      match bgr2gray bgrMat with
      | Throw e => Throw e
      | Ok grayMat =>
          match gaussian_blur grayMat (mkSize 5 5) (3 # 2)%Q with
          | Throw e => Throw e
          | Ok blurredMat => canny blurredMat (50 # 1)%Q (150 # 1)%Q
          end
      end
  end.

(* ===================================================================== *)
(** ** Vocabulary for the statements *)
(* ===================================================================== *)

Definition available (sv : service) : bool :=
  match sv with Unavailable => false | _ => true end.

(** The number of rows of [yuvMat] and the loop bound, as the code computes
    them. *)
Definition yuv_rows (height : Z) : Z := Jint.add height (Jint.div height 2).
Definition pixelCount (width height : Z) : nat := Z.to_nat (Jint.mul width height).

(** The library calls recorded in a trace, in order. *)
Fixpoint cv_calls (t : list event) : list cv_call :=
  match t with
  | [] => []
  | EvCv c :: t' => c :: cv_calls t'
  | _ :: t' => cv_calls t'
  end.

(** The releases recorded in a trace, in order. *)
Fixpoint releases (t : list event) : list (resource * release_mode) :=
  match t with
  | [] => []
  | EvRelease r m :: t' => (r, m) :: releases t'
  | _ :: t' => releases t'
  end.

Definition four_stages : list cv_call :=
  [ CallCvtColor COLOR_YUV2BGR_NV21;
    CallCvtColor COLOR_BGR2GRAY;
    CallGaussianBlur (mkSize 5 5) (3 # 2)%Q;
    CallCanny (50 # 1)%Q (150 # 1)%Q ].

(** The releases of the early exit: each view that was obtained, aborted. *)
Definition abort_obtained (s : jni) : list (resource * release_mode) :=
  (if available (serve_bytes s) then [(ByteElems, JNI_ABORT)] else [])
  ++ (if available (serve_ints s) then [(IntElems, JNI_ABORT)] else []).

(** [a] with the [n] cells from [i] on overwritten by [BLACK]. *)
Definition blacken (i n : nat) (a : list Z) : list Z :=
  take i a ++ replicate n BLACK ++ drop (i + n) a.

(** The ways a call can end.  [path w h s r] describes the outcome [r] of a
    call made in state [s] together with what led to it. *)
Inductive path `{lib : ImgProc} (w h : Z) (s : jni) : res Z -> Prop :=
| path_input_error s' :
    available (serve_bytes s) && available (serve_ints s) = false ->
    yuvData s' = yuvData s ->
    outputBuffer s' = outputBuffer s ->
    held s' = held s ->
    cv_calls (trace s') = cv_calls (trace s) ->
    releases (trace s') = releases (trace s) ++ abort_obtained s ->
    path w h s (Val (-1) s')
| path_bad_header :
    available (serve_bytes s) && available (serve_ints s) = true ->
    Mat_over (yuv_rows h) w CV_8UC1 (yuvData s) = None ->
    path w h s Undefined
| path_stage_throws yuvMat e s' :
    available (serve_bytes s) && available (serve_ints s) = true ->
    Mat_over (yuv_rows h) w CV_8UC1 (yuvData s) = Some yuvMat ->
    pipeline yuvMat = Throw e ->
    yuvData s' = yuvData s ->
    outputBuffer s' = outputBuffer s ->
    held s' = IntElems :: ByteElems :: held s ->
    releases (trace s') = releases (trace s) ->
    path w h s (Val (-1) s')
| path_expand_throws yuvMat edgesMat e s' :
    available (serve_bytes s) && available (serve_ints s) = true ->
    Mat_over (yuv_rows h) w CV_8UC1 (yuvData s) = Some yuvMat ->
    pipeline yuvMat = Ok edgesMat ->
    gray2rgba edgesMat = Throw e ->
    yuvData s' = yuvData s ->
    outputBuffer s' = outputBuffer s ->
    held s' = IntElems :: ByteElems :: held s ->
    releases (trace s') = releases (trace s) ->
    path w h s (Val (-1) s')
| path_overrun yuvMat edgesMat rgbaMat :
    available (serve_bytes s) && available (serve_ints s) = true ->
    Mat_over (yuv_rows h) w CV_8UC1 (yuvData s) = Some yuvMat ->
    pipeline yuvMat = Ok edgesMat ->
    gray2rgba edgesMat = Ok rgbaMat ->
    ~ (pixelCount w h = 0
       \/ pixelCount w h <= length (mat_data edgesMat)
          /\ pixelCount w h <= length (outputBuffer s))%nat ->
    path w h s Undefined
| path_success yuvMat edgesMat rgbaMat s' :
    available (serve_bytes s) && available (serve_ints s) = true ->
    Mat_over (yuv_rows h) w CV_8UC1 (yuvData s) = Some yuvMat ->
    pipeline yuvMat = Ok edgesMat ->
    gray2rgba edgesMat = Ok rgbaMat ->
    (pixelCount w h = 0
     \/ pixelCount w h <= length (mat_data edgesMat)
        /\ pixelCount w h <= length (outputBuffer s))%nat ->
    yuvData s' = yuvData s ->
    outputBuffer s' = blacken 0 (pixelCount w h) (outputBuffer s) ->
    held s' = held s ->
    cv_calls (trace s') =
      cv_calls (trace s) ++ four_stages ++ [CallCvtColor COLOR_GRAY2RGBA] ->
    releases (trace s') =
      releases (trace s) ++ [(ByteElems, JNI_ABORT); (IntElems, MODE_0)] ->
    path w h s (Val 0 s').

(** The header the call puts over a frame of the stated length. *)
Definition frame_header (w h : Z) (frame : list byte) : Mat :=
  mkMat (yuv_rows h) w CV_8UC1
        (take (Z.to_nat (yuv_rows h * w * channels CV_8UC1)) frame).

(** The state a call ended in (the initial one if it has no final state). *)
Definition final_state (r : res Z) (s : jni) : jni :=
  match r with
  | Val _ s' => s'
  | Exc _ s' => s'
  | Undefined => s
  end.

(** The step frame handed to the bridge with a zero-filled [int[16]]; the VM
    pins the frame and copies the output array. *)
Definition step_call : jni :=
  fresh_call step_frame (replicate 16 0) Pin Duplicate.

Definition step_done : jni :=
  final_state (nativeProcessFrame (lib := Plain.lib) 4 4 step_call) step_call.

(** The mask the detector of [Plain.lib] returns for the step frame:
    column 1 of every row. *)
Definition step_mask : Mat :=
  mkMat 4 4 CV_8UC1
        [x00; xff; x00; x00;  x00; xff; x00; x00;
         x00; xff; x00; x00;  x00; xff; x00; x00].

(** The same frame in another environment: the VM copies the frame and pins
    the output array, a view from earlier is still held, and the trace and
    the native copies are not empty. *)
Definition step_call_again : jni :=
  mkJni step_frame (replicate 16 0) Duplicate Pin
        [x01] [7] [ByteElems] [EvLogE "earlier"].

(** The step frame and a fresh output array again, in an environment in
    which the VM pins the frame but cannot hand out the output array. *)
Definition step_call_starved : jni :=
  fresh_call step_frame (replicate 16 0) Pin Unavailable.

Definition step_starved_done : jni :=
  final_state (nativeProcessFrame (lib := Plain.lib) 4 4 step_call_starved)
              step_call_starved.

(** A 1x2 frame of the stated length: an odd width. *)
Definition narrow_call : jni :=
  fresh_call (replicate 3 x00) (replicate 2 0) Pin Pin.

Definition narrow_done : jni :=
  final_state (nativeProcessFrame (lib := Plain.lib) 1 2 narrow_call) narrow_call.

(** A 2x2 frame whose output array the VM cannot hand out. *)
Definition starved_call : jni :=
  fresh_call (replicate 6 x80) (replicate 4 0) Duplicate Unavailable.

Definition starved_done : jni :=
  final_state (nativeProcessFrame (lib := Plain.lib) 2 2 starved_call) starved_call.

(** A call with no pixels: width 0. *)
Definition empty_call : jni :=
  fresh_call [] [] Pin Pin.

Definition empty_done : jni :=
  final_state (nativeProcessFrame (lib := Plain.lib) 0 4 empty_call) empty_call.

(* ===================================================================== *)
(** ** The rest of the native interface, and calls in sequence *)
(* ===================================================================== *)

(** [LOGD]: debug messages are not among the events the trace records. *)
Definition LOGD (msg : string) : M unit := ret tt.

(** [Java_com_openedge_processing_EdgeDetection_nativeInit]; [CV_VERSION]
    is the version string of the linked library. *)
Definition nativeInit (CV_VERSION : string) : M bool :=
  try_catch
    (bind (LOGD ("OpenCV initialized - version: " ++ CV_VERSION))
          (fun _ => ret true))
    (fun _ => bind (LOGE "Failed to initialize OpenCV") (fun _ => ret false)).

(** [n] calls of the bridge, one after the other, on the same arrays and
    dimensions, as a capture loop makes them; the status codes are dropped. *)
Fixpoint frames `{lib : ImgProc} (n : nat) (width height : Z) : M unit :=
  match n with
  | O => ret tt
  | S n' => bind (nativeProcessFrame width height)
                 (fun _ => frames n' width height)
  end.

(** The views [n] calls that end in a catch block leave behind. *)
Fixpoint leaked (n : nat) : list resource :=
  match n with
  | O => []
  | S n' => IntElems :: ByteElems :: leaked n'
  end.

(** The error messages recorded in a trace, in order. *)
Fixpoint error_logs (t : list event) : list string :=
  match t with
  | [] => []
  | EvLogE msg :: t' => msg :: error_logs t'
  | _ :: t' => error_logs t'
  end.

(** The three messages the bridge can log. *)
Definition failure_message (msg : string) : Prop :=
  msg = "Failed to get array elements"%string
  \/ (exists what, msg = ("OpenCV exception: " ++ what)%string)
  \/ msg = "Unknown exception in edge detection"%string.

Definition five_calls : list cv_call :=
  four_stages ++ [CallCvtColor COLOR_GRAY2RGBA].

(** What a call leaves in the environment besides the arrays: how the VM
    serves the arrays is not changed, a failure logs one message and has
    made the first [k] library calls, a success logs nothing. *)
Inductive finish (s : jni) : res Z -> Prop :=
| finish_success s' :
    serve_bytes s' = serve_bytes s ->
    serve_ints s' = serve_ints s ->
    error_logs (trace s') = error_logs (trace s) ->
    finish s (Val 0 s')
| finish_failure s' msg k :
    serve_bytes s' = serve_bytes s ->
    serve_ints s' = serve_ints s ->
    failure_message msg ->
    error_logs (trace s') = error_logs (trace s) ++ [msg] ->
    cv_calls (trace s') = cv_calls (trace s) ++ take k five_calls ->
    (k = 0%nat <-> available (serve_bytes s) && available (serve_ints s) = false) ->
    (k <= 5)%nat ->
    finish s (Val (-1) s')
| finish_undefined :
    finish s Undefined.

(** A 2x3 frame of the stated length: an odd height. *)
Definition odd_call : jni :=
  fresh_call (replicate 9 x80) (replicate 6 0) Pin Pin.

(** The step frame with an output array one cell short. *)
Definition short_call : jni :=
  fresh_call step_frame (replicate 15 0) Pin Pin.

(** The step frame with an output array four cells longer than the image,
    filled with 7. *)
Definition long_call : jni :=
  fresh_call step_frame (replicate 20 7) Duplicate Pin.

(** Two pixels as the loop may meet them: alpha 127 (a positive [int]) and
    alpha 255 (a negative one). *)
Definition two_pixels : list byte :=
  [xff; xff; xff; x7f;  xff; xff; xff; xff].

Definition long_done : jni :=
  final_state (nativeProcessFrame (lib := Plain.lib) 4 4 long_call) long_call.

(** A three-cell output array, pinned, for running the loop by itself. *)
Definition loop_call : jni :=
  fresh_call [] [5; 5; 5] Pin Pin.

(** A uniform 4x4 frame: luma and chroma all 128. *)
Definition flat_call : jni :=
  fresh_call (replicate 24 x80) (replicate 16 0) Pin Pin.

Definition flat_done : jni :=
  final_state (nativeProcessFrame (lib := Plain.lib) 4 4 flat_call) flat_call.

(* ===================================================================== *)
(** ** Machine integers and pixel encoding *)
(* ===================================================================== *)

Lemma wrap_id z : Jint.in_range z -> Jint.wrap z = z.
Proof.
  unfold Jint.in_range, Jint.wrap. intros Hz.
  rewrite Z.mod_small by lia. lia.
Qed.

Lemma BLACK_value : BLACK = -16777216.
Proof. reflexivity. Qed.

Lemma WHITE_value : WHITE = -1.
Proof. reflexivity. Qed.

Lemma byte_range (b : byte) : 0 <= Z.of_N (Byte.to_N b) < 256.
Proof. pose proof (Byte.to_N_bounded b). lia. Qed.


(** An unsigned 32-bit pattern with its top byte at 255 is a negative
    [int]. *)
Lemma wrap_top_byte_negative v :
  2 ^ 24 * 255 <= v < 2 ^ 32 -> Jint.wrap v < 0.
Proof.
  intros Hv. unfold Jint.wrap.
  rewrite <- (Z.mod_unique (v + 2 ^ 31) (2 ^ 32) 1 (v + 2 ^ 31 - 2 ^ 32)); lia.
Qed.

(** A pixel whose alpha byte is 255 reads as a negative [int]: the alpha
    byte supplies the sign bit. *)
Lemma opaque_pixel_negative b0 b1 b2 : Jint.of_bytes_le b0 b1 b2 xff < 0.
Proof.
  unfold Jint.of_bytes_le.
  pose proof (byte_range b0). pose proof (byte_range b1).
  pose proof (byte_range b2).
  change (Z.of_N (Byte.to_N xff)) with 255.
  apply wrap_top_byte_negative. lia.
Qed.

Lemma lookup_expand_gray (d : list byte) (i k : nat) :
  (k < 4)%nat ->
  flat_map expand_gray d !! (4 * i + k)%nat =
    match d !! i with
    | Some g => expand_gray g !! k
    | None => None
    end.
Proof.
  revert i. induction d as [|g d IH]; intros i Hk.
  - simpl. by rewrite !lookup_nil.
  - destruct i as [|i].
    + simpl. destruct k as [|[|[|[|k]]]]; simpl; try done; lia.
    + replace (4 * S i + k)%nat with (S (S (S (S (4 * i + k))))) by lia.
      simpl. by apply IH.
Qed.

Lemma read_int_rgba (d : list byte) (i : nat) :
  read_int (flat_map expand_gray d) i =
    match d !! i with
    | Some g => Some (Jint.of_bytes_le g g g xff)
    | None => None
    end.
Proof.
  unfold read_int.
  rewrite <- (Nat.add_0_r (4 * i)) at 1.
  rewrite !lookup_expand_gray by lia.
  by destruct (d !! i).
Qed.

(* ===================================================================== *)
(** ** The output array under the loop *)
(* ===================================================================== *)

Lemma lookup_blacken (i n j : nat) (a : list Z) :
  (i + n <= length a)%nat ->
  blacken i n a !! j =
    if decide (i <= j < i + n)%nat then Some BLACK else a !! j.
Proof.
  intros Hlen. unfold blacken.
  rewrite lookup_app, lookup_take, length_take_le by lia.
  destruct (decide (j < i)%nat) as [Hji|Hji].
  - rewrite decide_False by lia.
    destruct (lookup_lt_is_Some_2 a j) as [x ->]; [lia | done].
  - rewrite lookup_app, length_replicate.
    destruct (decide (i <= j < i + n)%nat) as [Hin|Hout].
    + by rewrite lookup_replicate_2 by lia.
    + rewrite (lookup_ge_None_2 (replicate n BLACK))
        by (rewrite length_replicate; lia).
      rewrite lookup_drop. f_equal. lia.
Qed.

Lemma length_blacken (i n : nat) (a : list Z) :
  (i + n <= length a)%nat -> length (blacken i n a) = length a.
Proof.
  intros Hlen. unfold blacken.
  rewrite !length_app, length_take_le, length_replicate, length_drop by lia.
  lia.
Qed.

Lemma blacken_nothing (i : nat) (a : list Z) : blacken i 0 a = a.
Proof. unfold blacken. simpl. rewrite Nat.add_0_r. apply take_drop. Qed.

Lemma blacken_step (i n : nat) (a : list Z) :
  (i + S n <= length a)%nat ->
  blacken (S i) n (<[i := BLACK]> a) = blacken i (S n) a.
Proof.
  intros Hlen. apply list_eq. intros j.
  rewrite !lookup_blacken by (rewrite ?length_insert; lia).
  rewrite list_lookup_insert.
  repeat case_decide; try done; lia.
Qed.

Lemma ints_at_set p v s : p <> Null -> ints_at p (set_ints_at p v s) = Some v.
Proof. by destruct p. Qed.

Lemma set_ints_at_twice p v v' s :
  set_ints_at p v (set_ints_at p v' s) = set_ints_at p v s.
Proof. by destruct p. Qed.

Lemma set_ints_at_same p a s : ints_at p s = Some a -> set_ints_at p a s = s.
Proof. destruct p, s; simpl; intros; by simplify_eq. Qed.

Section Loop.

Context `{lib : ImgProc}.

(** The loop over the expanded detector output: every pixel it reads is
    negative, so every store is [BLACK].  It runs to the end exactly when
    both the matrix and the array have [i + n] cells. *)
Lemma copy_loop_rgba (g : list byte) (p : elems) (i n : nat) (s : jni) (a : list Z) :
  ints_at p s = Some a ->
  copy_loop (flat_map expand_gray g) p i n s =
    if decide (n = 0 \/ i + n <= length g /\ i + n <= length a)%nat
    then Val tt (set_ints_at p (blacken i n a) s)
    else Undefined.
Proof.
  revert i s a. induction n as [|n IH]; intros i s a Ha.
  - cbn [copy_loop]. unfold ret. rewrite decide_True by lia.
    by rewrite blacken_nothing, set_ints_at_same.
  - assert (Hp : p <> Null) by (by destruct p).
    cbn [copy_loop]. unfold bind at 1, load_int.
    rewrite read_int_rgba.
    destruct (g !! i) as [b|] eqn:Hg.
    + apply lookup_lt_Some in Hg.
      pose proof (opaque_pixel_negative b b b) as Hneg.
      replace (Jint.of_bytes_le b b b xff >? 0) with false by lia.
      unfold bind, store_int. rewrite Ha.
      destruct (decide (i < length a)%nat) as [Hi|Hi].
      * erewrite IH by (by apply ints_at_set).
        rewrite length_insert, set_ints_at_twice.
        destruct (decide (n = 0 \/ _)%nat) as [[->|Hn]|Hn].
        -- rewrite decide_True by lia.
           by rewrite blacken_nothing, <- (blacken_step i 0), blacken_nothing by lia.
        -- rewrite decide_True by lia. by rewrite blacken_step by lia.
        -- rewrite decide_False by lia. done.
      * rewrite decide_False by lia. done.
    + apply lookup_ge_None in Hg. rewrite decide_False by lia. done.
Qed.

End Loop.

(* ===================================================================== *)
(** ** Every call follows one of the paths *)
(* ===================================================================== *)

Lemma cv_calls_app t1 t2 : cv_calls (t1 ++ t2) = cv_calls t1 ++ cv_calls t2.
Proof.
  induction t1 as [|[c|r m|msg] t1 IH]; simpl; by rewrite ?IH.
Qed.

Lemma releases_app t1 t2 : releases (t1 ++ t2) = releases t1 ++ releases t2.
Proof.
  induction t1 as [|[c|r m|msg] t1 IH]; simpl; by rewrite ?IH.
Qed.

Lemma gray2rgba_data m r :
  gray2rgba m = Ok r -> mat_data r = flat_map expand_gray (mat_data m).
Proof.
  unfold gray2rgba. destruct (mat_empty m); [done|].
  case_decide; [|done]. by intros [= <-].
Qed.

Lemma bind_invoke {B} c r (k : Mat -> M B) s :
  bind (invoke c r) k s =
    match r with
    | Ok m => k m (log (EvCv c) s)
    | Throw e => Exc e (log (EvCv c) s)
    end.
Proof. unfold bind, invoke. by destruct r. Qed.

(** Reads the fields of a final state off its construction. *)
Ltac fields Hb Hi :=
  unfold abort_obtained; cbn;
  rewrite ?Hb, ?Hi, ?cv_calls_app, ?releases_app; cbn;
  rewrite ?app_nil_r, <- ?app_assoc; try done.

(** Closes the case of a stage that threw: the handler logs and returns. *)
Ltac thrown Hb Hi Hm H1 H2 H3 H4 :=
  match goal with
  | |- path _ _ _ (match ?e with CvException _ => _ | OtherException => _ end _) =>
      destruct e
  end;
  cbn;
  match type of Hm with
  | _ = Some ?m => eapply (path_stage_throws _ _ _ m)
  end;
  lazymatch goal with
  | |- Mat_over _ _ _ _ = _ => exact Hm
  | |- pipeline _ = _ =>
      unfold pipeline; rewrite H1; cbn; rewrite ?H2; cbn; rewrite ?H3; cbn;
      rewrite ?H4; reflexivity
  | |- _ => fields Hb Hi
  end.

Local Arguments String.append : simpl never.

Section Paths.

Context `{lib : ImgProc}.

Lemma nativeProcessFrame_path w h s : path w h s (nativeProcessFrame w h s).
Proof.
  unfold nativeProcessFrame, try_catch.
  unfold bind at 1. unfold GetByteArrayElements.
  destruct (serve_bytes s) eqn:Hb.
  { unfold bind at 1. unfold GetIntArrayElements.
    destruct (serve_ints s) eqn:Hi; cbn;
      apply path_input_error; fields Hb Hi. }
  all: unfold bind at 1; unfold GetIntArrayElements;
    cbn [serve_ints set_held set_yuv_copy].
  all: destruct (serve_ints s) eqn:Hi;
    [ cbn; apply path_input_error; fields Hb Hi | | ].
  all: cbn [is_null orb].
  all: unfold bind at 1; unfold Mat_ctor; cbn [bytes_at yuvData set_held set_yuv_copy set_out_copy yuv_copy].
  all: fold (yuv_rows h).
  all: destruct (Mat_over (yuv_rows h) w CV_8UC1 (yuvData s)) as [yuvMat|] eqn:Hm;
    [ | apply path_bad_header; fields Hb Hi ].
  all: unfold cvtColor, GaussianBlur, Canny; cbn [cvtColor_pure].
  all: rewrite bind_invoke;
    destruct (yuv2bgr_nv21 yuvMat) as [bgrMat|e] eqn:H1; cbv beta iota;
    [ | thrown Hb Hi Hm H1 H1 H1 H1 ].
  all: rewrite bind_invoke;
    destruct (bgr2gray bgrMat) as [grayMat|e] eqn:H2; cbv beta iota;
    [ | thrown Hb Hi Hm H1 H2 H2 H2 ].
  all: rewrite bind_invoke;
    destruct (gaussian_blur grayMat (mkSize 5 5) (3 # 2)%Q)
      as [blurredMat|e] eqn:H3; cbv beta iota;
    [ | thrown Hb Hi Hm H1 H2 H3 H3 ].
  all: rewrite bind_invoke;
    destruct (canny blurredMat (50 # 1)%Q (150 # 1)%Q)
      as [edgesMat|e] eqn:H4; cbv beta iota;
    [ | thrown Hb Hi Hm H1 H2 H3 H4 ].
  all: assert (Hp : pipeline yuvMat = Ok edgesMat)
    by (unfold pipeline; rewrite H1; cbn; rewrite H2; cbn; rewrite H3; cbn;
        by rewrite H4).
  all: rewrite bind_invoke;
    destruct (gray2rgba edgesMat) as [rgbaMat|e] eqn:H5; cbv beta iota;
    [ | destruct e; cbn;
        eapply (path_expand_throws _ _ _ yuvMat edgesMat); fields Hb Hi ].
  all: rewrite (gray2rgba_data _ _ H5); fold (pixelCount w h).
  all: unfold bind at 1; erewrite copy_loop_rgba by reflexivity.
  all: cbn [outputBuffer set_held set_out_copy set_yuv_copy log Nat.add].
  all: destruct (decide (pixelCount w h = 0 \/ _)%nat) as [Hfit|Hfit];
    [ | by eapply (path_overrun _ _ _ yuvMat edgesMat rgbaMat); fields Hb Hi ].
  all: cbn; eapply (path_success _ _ _ yuvMat edgesMat rgbaMat); fields Hb Hi.
Qed.

End Paths.

(* ===================================================================== *)
(** ** Properties of the bridge *)
(* ===================================================================== *)

Lemma pipeline_Ok_inv `{lib : ImgProc} yuvMat edgesMat :
  pipeline yuvMat = Ok edgesMat ->
  exists bgrMat grayMat blurredMat,
    yuv2bgr_nv21 yuvMat = Ok bgrMat /\
    bgr2gray bgrMat = Ok grayMat /\
    gaussian_blur grayMat (mkSize 5 5) (3 # 2)%Q = Ok blurredMat /\
    canny blurredMat (50 # 1)%Q (150 # 1)%Q = Ok edgesMat.
Proof.
  unfold pipeline. intros Hp.
  destruct (yuv2bgr_nv21 yuvMat) as [bgrMat|] eqn:H1; [|done].
  destruct (bgr2gray bgrMat) as [grayMat|] eqn:H2; [|done].
  destruct (gaussian_blur grayMat _ _) as [blurredMat|] eqn:H3; [|done].
  exists bgrMat, grayMat, blurredMat. auto.
Qed.

Lemma blacken_whole (n : nat) (a : list Z) :
  length a = n -> blacken 0 n a = replicate n BLACK.
Proof.
  intros Hn. unfold blacken. simpl.
  rewrite drop_ge by lia. by rewrite app_nil_r.
Qed.

Lemma WHITE_neq_BLACK : WHITE <> BLACK.
Proof. done. Qed.

Lemma yuv_rows_small h :
  0 <= h -> h + h / 2 < 2 ^ 31 -> yuv_rows h = h + h / 2.
Proof.
  intros Hh Hsmall. unfold yuv_rows, Jint.add, Jint.div.
  rewrite Z.quot_div_nonneg by lia.
  assert (0 <= h / 2) by (apply Z.div_pos; lia).
  rewrite (wrap_id (h / 2)) by (unfold Jint.in_range; lia).
  apply wrap_id. unfold Jint.in_range. lia.
Qed.

Lemma yuv_rows_zero : yuv_rows 0 = 0.
Proof. reflexivity. Qed.

(** A frame of [w*h*3/2] bytes is long enough for the header the call puts
    over it. *)
Lemma frame_covers_header w h :
  0 < w -> 0 < h -> (h + h / 2) * w <= (w * h * 3) / 2.
Proof.
  intros Hw Hh. apply Z.div_le_lower_bound; [lia|].
  pose proof (Z.mul_div_le h 2). nia.
Qed.

Lemma Mat_over_valid_frame w h (frame : list byte) :
  0 < w -> 0 < h ->
  Z.of_nat (length frame) = (w * h * 3) ÷ 2 ->
  Z.of_nat (length frame) < 2 ^ 31 ->
  yuv_rows h = h + h / 2 /\
  Mat_over (yuv_rows h) w CV_8UC1 frame = Some (frame_header w h frame).
Proof.
  intros Hw Hh Hlen Hjint.
  assert (Hpos : 0 < w * h) by (apply Z.mul_pos_pos; lia).
  rewrite Z.quot_div_nonneg in Hlen by lia.
  pose proof (frame_covers_header w h Hw Hh) as Hcov.
  assert (0 <= h / 2) by (apply Z.div_pos; lia).
  assert (Hrows : yuv_rows h = h + h / 2) by (apply yuv_rows_small; nia).
  split; [done|].
  unfold Mat_over, frame_header. rewrite Hrows.
  replace ((h + h / 2) * w =? 0) with false by nia.
  replace (0 <? h + h / 2) with true by lia.
  replace (0 <? w) with true by lia.
  replace ((h + h / 2) * w * channels CV_8UC1 <=? Z.of_nat (length frame))
    with true by (cbn [channels]; lia).
  done.
Qed.

Lemma pixelCount_small w h :
  0 <= w * h < 2 ^ 31 -> pixelCount w h = Z.to_nat (w * h).
Proof.
  intros Hwh. unfold pixelCount, Jint.mul.
  rewrite wrap_id; [done | unfold Jint.in_range; lia].
Qed.

(** A header with no pixels is an empty matrix, whatever is behind it. *)
Lemma Mat_over_no_pixels w h (frame : list byte) :
  w = 0 \/ h = 0 ->
  exists m, Mat_over (yuv_rows h) w CV_8UC1 frame = Some m /\ mat_empty m = true.
Proof.
  intros Hz.
  assert (Hprod : yuv_rows h * w = 0)
    by (destruct Hz as [-> | ->]; [lia | by rewrite yuv_rows_zero]).
  unfold Mat_over. rewrite Hprod. cbn [Z.eqb].
  eexists. split; [done|]. unfold mat_empty, mat_total. cbn. by rewrite Hprod.
Qed.

Lemma gray2rgba_accepts m :
  mat_type m = CV_8UC1 -> mat_empty m = false -> exists r, gray2rgba m = Ok r.
Proof.
  intros Ht He. unfold gray2rgba. rewrite He. rewrite decide_True by done.
  eauto.
Qed.

Lemma pipeline_first_stage_throws `{lib : ImgProc} m e :
  yuv2bgr_nv21 m = Throw e -> pipeline m = Throw e.
Proof. intros Hm. unfold pipeline. by rewrite Hm. Qed.

(** Inversion of the outcome of a call along [path]. *)
Ltac along_path Hrun :=
  match type of Hrun with
  | @nativeProcessFrame _ ?w ?h ?s = _ =>
      let P := fresh "P" in
      pose proof (nativeProcessFrame_path w h s) as P;
      rewrite Hrun in P; inversion P; subst; clear P
  end.

(** Two equations for the same stage name the same result. *)
Ltac same_run :=
  repeat match goal with
         | H1 : ?x = _, H2 : ?x = _ |- _ =>
             rewrite H1 in H2;
             first [ discriminate H2 | injection H2 as <- | clear H2 ]
         end.

Section Claims.

Context `{lib : ImgProc}.

(** The call never lets an exception cross the boundary. *)
Lemma no_exception_escapes w h s e s' :
  nativeProcessFrame w h s <> Exc e s'.
Proof. intros Hrun. along_path Hrun. Qed.

(** The only status codes are 0 and -1. *)
Lemma returned_status w h s r s' :
  nativeProcessFrame w h s = Val r s' -> r = 0 \/ r = -1.
Proof. intros Hrun. along_path Hrun; auto. Qed.

(** C1 (as the code has it): after a successful call every position the
    loop visits holds 0xFF000000, whatever the detector reported there.
    The claim asks for 0xFFFFFFFF exactly where the detector's output is
    non-zero; the loop tests [pixel > 0] on the RGBA expansion of that
    output, whose alpha byte makes every pixel a negative [int], so the
    first branch is never taken. *)
Theorem C1_edge_positions_are_written_black w h s s' :
  nativeProcessFrame w h s = Val 0 s' ->
  exists yuvMat edgesMat,
    Mat_over (yuv_rows h) w CV_8UC1 (yuvData s) = Some yuvMat /\
    pipeline yuvMat = Ok edgesMat /\
    forall i, (i < pixelCount w h)%nat ->
      is_Some (mat_data edgesMat !! i) /\
      outputBuffer s' !! i = Some BLACK.
Proof.
  intros Hrun. along_path Hrun.
  match goal with
  | Hm : Mat_over _ _ _ _ = Some ?m, Hp : pipeline ?m = Ok ?e |- _ =>
      exists m, e; split; [exact Hm | split; [exact Hp |]]
  end.
  intros i Hi.
  match goal with
  | Hfit : (_ \/ _)%nat, Hout : outputBuffer s' = _ |- _ =>
      destruct Hfit as [Hz|[Hd Ho]]; [lia|];
      rewrite Hout, lookup_blacken by lia
  end.
  split; [apply lookup_lt_is_Some; lia | by rewrite decide_True by lia].
Qed.

(** C2 (as the code has it): on the 4x4 step frame a successful call
    leaves sixteen pixels 0xFF000000 and no 0xFFFFFFFF at all, for every
    library, so no edge pixel marks the column of the step. *)
Theorem C2_step_frame_yields_no_edge_pixel (out : list Z) (sb si : service) s' :
  length out = 16%nat ->
  nativeProcessFrame 4 4 (fresh_call step_frame out sb si) = Val 0 s' ->
  outputBuffer s' = replicate 16 BLACK /\ WHITE ∉ outputBuffer s'.
Proof.
  intros Hlen Hrun. along_path Hrun.
  match goal with
  | Hout : outputBuffer s' = _ |- _ =>
      rewrite Hout; change (pixelCount 4 4) with 16%nat; cbn [outputBuffer fresh_call]
  end.
  rewrite blacken_whole by done. split; [done|].
  intros Hin. apply elem_of_replicate in Hin as [Hw _]. done.
Qed.


(** C5 (as the code has it): when a library stage throws, the handler
    returns -1 with both element views still held: neither
    [ReleaseByteArrayElements] nor [ReleaseIntArrayElements] is called on
    that exit, although the early exit and the successful exit release
    them. *)
Theorem C5_views_outlive_a_thrown_stage w h s yuvMat e :
  available (serve_bytes s) && available (serve_ints s) = true ->
  Mat_over (yuv_rows h) w CV_8UC1 (yuvData s) = Some yuvMat ->
  pipeline yuvMat = Throw e ->
  exists s',
    nativeProcessFrame w h s = Val (-1) s' /\
    held s' = IntElems :: ByteElems :: held s /\
    releases (trace s') = releases (trace s).
Proof.
  intros Hav Hm Hp.
  destruct (nativeProcessFrame w h s) as [r s'| |] eqn:Hrun;
    along_path Hrun; try congruence.
  exists s'. by simplify_eq.
Qed.

(** The exits that do release: the early exit and the successful one
    return with exactly the views that were held before the call. *)
Lemma views_released_on_other_exits w h s r s' :
  nativeProcessFrame w h s = Val r s' ->
  r = 0 \/ available (serve_bytes s) && available (serve_ints s) = false ->
  held s' = held s.
Proof.
  intros Hrun Hcase. along_path Hrun; try done;
    destruct Hcase; congruence.
Qed.

(** C6: when the frame array or the output array cannot be handed out,
    the call returns -1 and the trace of the call contains no library
    call. *)
Theorem C6_unavailable_buffer_returns_failure w h s :
  serve_bytes s = Unavailable \/ serve_ints s = Unavailable ->
  exists s',
    nativeProcessFrame w h s = Val (-1) s' /\
    cv_calls (trace s') = cv_calls (trace s).
Proof.
  intros Hun.
  assert (Hav : available (serve_bytes s) && available (serve_ints s) = false).
  { destruct Hun as [-> | ->]; [done | by destruct (serve_bytes s)]. }
  destruct (nativeProcessFrame w h s) as [r s'| |] eqn:Hrun;
    along_path Hrun; try congruence.
  by exists s'.
Qed.

(** C7: a call that returns leaves the contents of the frame array as
    they were; the output array is the only array it may change. *)
Theorem C7_frame_array_is_unchanged w h s r s' :
  nativeProcessFrame w h s = Val r s' ->
  yuvData s' = yuvData s.
Proof. intros Hrun. by along_path Hrun. Qed.

(** C8 (amended): a successful call made exactly these library calls, in
    this order: NV21 to BGR, BGR to gray, Gaussian blur 5x5 with sigma
    1.5, Canny with thresholds 50 and 150, each fed the result of the one
    before, and then the gray-to-RGBA expansion of the detector's output.
    The loop reads that expansion: run over its data on the output array as
    it was before the call, the loop yields the output array the call
    leaves, and every cell below [width*height] holds the value the loop
    chooses for the [int] at its index in the expansion. *)
Theorem C8_four_stages_then_expansion w h s s' :
  nativeProcessFrame w h s = Val 0 s' ->
  exists yuvMat bgrMat grayMat blurredMat edgesMat rgbaMat,
    Mat_over (yuv_rows h) w CV_8UC1 (yuvData s) = Some yuvMat /\
    yuv2bgr_nv21 yuvMat = Ok bgrMat /\
    bgr2gray bgrMat = Ok grayMat /\
    gaussian_blur grayMat (mkSize 5 5) (3 # 2)%Q = Ok blurredMat /\
    canny blurredMat (50 # 1)%Q (150 # 1)%Q = Ok edgesMat /\
    gray2rgba edgesMat = Ok rgbaMat /\
    cv_calls (trace s') =
      cv_calls (trace s) ++ four_stages ++ [CallCvtColor COLOR_GRAY2RGBA] /\
    copy_loop (mat_data rgbaMat) Direct 0 (pixelCount w h) s
      = Val tt (set_outputBuffer (outputBuffer s') s) /\
    forall i, (i < pixelCount w h)%nat ->
      exists v,
        read_int (mat_data rgbaMat) i = Some v /\
        outputBuffer s' !! i = Some (if v >? 0 then WHITE else BLACK).
Proof.
  intros Hrun. along_path Hrun.
  match goal with
  | Hp : pipeline ?m = Ok ?e, Hx : gray2rgba ?e = Ok ?r |- _ =>
      destruct (pipeline_Ok_inv m e Hp) as (b & g & bl & E1 & E2 & E3 & E4);
      exists m, b, g, bl, e, r;
      rewrite (gray2rgba_data e r Hx)
  end.
  do 7 (split; [done|]).
  match goal with
  | Hfit : (_ \/ _)%nat, Ho : outputBuffer s' = _ |- _ =>
      rewrite Ho; split
  end.
  - erewrite copy_loop_rgba by reflexivity.
    by rewrite decide_True by (cbn; tauto).
  - intros i Hi. rewrite read_int_rgba.
    match goal with
    | Hfit : (_ \/ _)%nat |- _ => destruct Hfit as [Hz|[Hd Hroom]]; [lia|]
    end.
    destruct (lookup_lt_is_Some_2 (mat_data edgesMat) i) as [g' ->]; [lia|].
    eexists. split; [done|].
    pose proof (opaque_pixel_negative g' g' g') as Hneg.
    replace (Jint.of_bytes_le g' g' g' xff >? 0) with false by lia.
    rewrite lookup_blacken by lia. by rewrite decide_True by lia.
Qed.

(** C10: on the early exit the output array is left as it was, and the
    only releases made are of the views that were obtained, each in
    abort mode. *)
Theorem C10_early_exit_leaves_output_untouched w h s :
  available (serve_bytes s) && available (serve_ints s) = false ->
  exists s',
    nativeProcessFrame w h s = Val (-1) s' /\
    outputBuffer s' = outputBuffer s /\
    releases (trace s') = releases (trace s) ++ abort_obtained s /\
    Forall (fun rm => rm.2 = JNI_ABORT) (abort_obtained s).
Proof.
  intros Hav.
  destruct (nativeProcessFrame w h s) as [r s'| |] eqn:Hrun;
    along_path Hrun; try congruence.
  exists s'. repeat split; try done.
  unfold abort_obtained.
  destruct (available (serve_bytes s)), (available (serve_ints s));
    repeat constructor.
Qed.


(** C3 (amended): for positive dimensions, an output array of [w*h]
    cells and a frame of [w*h*3/2] bytes (a Java array length, so below
    2^31): when both views are handed out and the four stages return a
    single-channel [h] by [w] mask, the call returns 0 and every cell of the
    output array is 0xFFFFFFFF or 0xFF000000; when a view is not handed
    out, or a stage or the expansion throws, the call returns -1. *)
Theorem C3_valid_call_returns_two_valued_output w h s :
  0 < w -> 0 < h ->
  Z.of_nat (length (outputBuffer s)) = w * h ->
  Z.of_nat (length (yuvData s)) = (w * h * 3) ÷ 2 ->
  Z.of_nat (length (yuvData s)) < 2 ^ 31 ->
  (forall edgesMat,
     available (serve_bytes s) && available (serve_ints s) = true ->
     pipeline (frame_header w h (yuvData s)) = Ok edgesMat ->
     mat_type edgesMat = CV_8UC1 ->
     mat_rows edgesMat = h -> mat_cols edgesMat = w ->
     Z.of_nat (length (mat_data edgesMat)) = w * h ->
     exists s',
       nativeProcessFrame w h s = Val 0 s' /\
       length (outputBuffer s') = length (outputBuffer s) /\
       Forall (fun p => p = WHITE \/ p = BLACK) (outputBuffer s'))
  /\ (available (serve_bytes s) && available (serve_ints s) = false ->
      exists s', nativeProcessFrame w h s = Val (-1) s')
  /\ (forall e,
        available (serve_bytes s) && available (serve_ints s) = true ->
        pipeline (frame_header w h (yuvData s)) = Throw e ->
        exists s', nativeProcessFrame w h s = Val (-1) s')
  /\ (forall edgesMat e,
        available (serve_bytes s) && available (serve_ints s) = true ->
        pipeline (frame_header w h (yuvData s)) = Ok edgesMat ->
        gray2rgba edgesMat = Throw e ->
        exists s', nativeProcessFrame w h s = Val (-1) s').
Proof.
  intros Hw Hh Hout Hin Hjint.
  destruct (Mat_over_valid_frame w h (yuvData s)) as [Hrows Hm]; try done.
  assert (Hpos : 0 < w * h) by (apply Z.mul_pos_pos; lia).
  assert (Hwh : 0 <= w * h < 2 ^ 31).
  { rewrite Z.quot_div_nonneg in Hin by lia.
    pose proof (Z.div_le_lower_bound (w * h * 3) 2 (w * h)). lia. }
  pose proof (pixelCount_small w h Hwh) as Hpc.
  split; [|split; [|split]].
  - intros edgesMat Hav Hp Hty Hr Hc Hdata.
    destruct (gray2rgba_accepts edgesMat Hty) as [rgba Hrgba].
    { unfold mat_empty, mat_total. rewrite Hr, Hc. apply Z.eqb_neq. lia. }
    destruct (nativeProcessFrame w h s) as [r s'| |] eqn:Hrun;
      along_path Hrun; same_run; try congruence.
    + exists s'. split; [done|].
      match goal with Ho : outputBuffer s' = _ |- _ => rewrite Ho end.
      rewrite blacken_whole by lia. rewrite length_replicate.
      split; [lia|]. apply Forall_replicate. by right.
    + match goal with Hno : ~ _ |- _ => destruct Hno end. right. lia.
  - intros Hav.
    destruct (nativeProcessFrame w h s) as [r s'| |] eqn:Hrun;
      along_path Hrun; same_run; try congruence; eauto.
  - intros e Hav Hp.
    destruct (nativeProcessFrame w h s) as [r s'| |] eqn:Hrun;
      along_path Hrun; same_run; try congruence; eauto.
  - intros edgesMat e Hav Hp Hx.
    destruct (nativeProcessFrame w h s) as [r s'| |] eqn:Hrun;
      along_path Hrun; same_run; try congruence; eauto.
Qed.

(** C4: if the colour conversion rejects an empty image by raising an
    exception, a call with [width = 0] or [height = 0] returns -1: the
    exception is caught inside the call. *)
Theorem C4_zero_dimension_returns_failure w h s :
  (forall m, mat_empty m = true -> exists e, yuv2bgr_nv21 m = Throw e) ->
  w = 0 \/ h = 0 ->
  exists s', nativeProcessFrame w h s = Val (-1) s'.
Proof.
  intros Hreject Hz.
  destruct (Mat_over_no_pixels w h (yuvData s) Hz) as (m & Hm & Hempty).
  destruct (Hreject m Hempty) as [e He].
  apply pipeline_first_stage_throws in He.
  destruct (nativeProcessFrame w h s) as [r s'| |] eqn:Hrun;
    along_path Hrun; simplify_eq; eauto; congruence.
Qed.

(** C9: two calls on equal frames and dimensions, with output arrays of
    equal initial contents (fresh arrays are zero-filled) and the same
    availability of the two views, end alike: the same status and the
    same output array, whether the VM pins or copies and whatever else
    the two environments hold. *)
Theorem C9_calls_are_deterministic w h s1 s2 :
  yuvData s1 = yuvData s2 ->
  outputBuffer s1 = outputBuffer s2 ->
  available (serve_bytes s1) = available (serve_bytes s2) ->
  available (serve_ints s1) = available (serve_ints s2) ->
  match nativeProcessFrame w h s1, nativeProcessFrame w h s2 with
  | Val r1 s1', Val r2 s2' => r1 = r2 /\ outputBuffer s1' = outputBuffer s2'
  | Undefined, Undefined => True
  | _, _ => False
  end.
Proof.
  intros Hy Ho Hb Hi.
  destruct (nativeProcessFrame w h s1) as [r1 s1'| |] eqn:Hrun1;
    destruct (nativeProcessFrame w h s2) as [r2 s2'| |] eqn:Hrun2;
    along_path Hrun1; along_path Hrun2;
    rewrite ?Hy, ?Ho, ?Hb, ?Hi in *; same_run;
    try done; try congruence; split; congruence.
Qed.

End Claims.

(* ===================================================================== *)
(** ** The bridge on concrete frames *)
(* ===================================================================== *)

Lemma step_call_returns :
  nativeProcessFrame (lib := Plain.lib) 4 4 step_call = Val 0 step_done.
Proof. vm_compute. reflexivity. Qed.

Lemma narrow_call_returns :
  nativeProcessFrame (lib := Plain.lib) 1 2 narrow_call = Val (-1) narrow_done.
Proof. vm_compute. reflexivity. Qed.

Lemma starved_call_returns :
  nativeProcessFrame (lib := Plain.lib) 2 2 starved_call = Val (-1) starved_done.
Proof. vm_compute. reflexivity. Qed.

Lemma empty_call_returns :
  nativeProcessFrame (lib := Plain.lib) 0 4 empty_call = Val (-1) empty_done.
Proof. vm_compute. reflexivity. Qed.

Lemma step_pipeline :
  pipeline (lib := Plain.lib) (frame_header 4 4 step_frame) = Ok step_mask.
Proof. vm_compute. reflexivity. Qed.

(** On the step frame the detector of [Plain.lib] marks column 1 of every
    row, and the call still writes 0xFF000000 there. *)
Example step_frame_edge_is_lost :
  mat_data step_mask !! 1%nat = Some xff /\
  outputBuffer step_done !! 1%nat = Some BLACK.
Proof. split; reflexivity. Qed.

Lemma Plain_rejects_empty m :
  mat_empty m = true -> exists e, yuv2bgr_nv21 (ImgProc := Plain.lib) m = Throw e.
Proof. intros He. cbn. unfold Plain.nv21. rewrite He. eauto. Qed.

Lemma C1_witness :
  nativeProcessFrame (lib := Plain.lib) 4 4 step_call = Val 0 step_done /\
  exists yuvMat edgesMat,
    Mat_over (yuv_rows 4) 4 CV_8UC1 (yuvData step_call) = Some yuvMat /\
    pipeline (lib := Plain.lib) yuvMat = Ok edgesMat /\
    forall i, (i < pixelCount 4 4)%nat ->
      is_Some (mat_data edgesMat !! i) /\
      outputBuffer step_done !! i = Some BLACK.
Proof.
  assert (Hrun : nativeProcessFrame (lib := Plain.lib) 4 4 step_call
                 = Val 0 step_done) by (vm_compute; reflexivity).
  split; [exact Hrun|].
  exact (C1_edge_positions_are_written_black (lib := Plain.lib)
           4 4 step_call step_done Hrun).
Defined.

Lemma C2_witness :
  length (replicate 16 0) = 16%nat /\
  nativeProcessFrame (lib := Plain.lib) 4 4
    (fresh_call step_frame (replicate 16 0) Pin Duplicate) = Val 0 step_done /\
  outputBuffer step_done = replicate 16 BLACK /\
  WHITE ∉ outputBuffer step_done.
Proof.
  assert (Hlen : length (replicate 16 0) = 16%nat) by reflexivity.
  assert (Hrun : nativeProcessFrame (lib := Plain.lib) 4 4
                   (fresh_call step_frame (replicate 16 0) Pin Duplicate)
                 = Val 0 step_done) by (vm_compute; reflexivity).
  split; [exact Hlen|]. split; [exact Hrun|].
  exact (C2_step_frame_yields_no_edge_pixel (lib := Plain.lib)
           (replicate 16 0) Pin Duplicate step_done Hlen Hrun).
Defined.

(** C3 (as stated) does not hold: a 1x2 frame has the stated lengths, both
    views are handed out, and the call returns -1 because the colour
    conversion rejects the odd width. *)
Lemma C3_counterexample :
  ~ (forall (lib : ImgProc) (w h : Z) (s : jni),
       0 < w -> 0 < h ->
       Z.of_nat (length (outputBuffer s)) = w * h ->
       Z.of_nat (length (yuvData s)) = (w * h * 3) ÷ 2 ->
       exists s',
         nativeProcessFrame w h s = Val 0 s' /\
         Forall (fun p => p = WHITE \/ p = BLACK) (outputBuffer s')).
Proof.
  intros Hclaim.
  destruct (Hclaim Plain.lib 1 2 narrow_call) as (s' & Hrun & _);
    [lia | lia | reflexivity | reflexivity |].
  rewrite narrow_call_returns in Hrun. discriminate Hrun.
Qed.

Lemma C3_witness :
  (forall edgesMat,
     available (serve_bytes step_call) && available (serve_ints step_call) = true ->
     pipeline (lib := Plain.lib) (frame_header 4 4 (yuvData step_call))
       = Ok edgesMat ->
     mat_type edgesMat = CV_8UC1 ->
     mat_rows edgesMat = 4 -> mat_cols edgesMat = 4 ->
     Z.of_nat (length (mat_data edgesMat)) = 4 * 4 ->
     exists s',
       nativeProcessFrame (lib := Plain.lib) 4 4 step_call = Val 0 s' /\
       length (outputBuffer s') = length (outputBuffer step_call) /\
       Forall (fun p => p = WHITE \/ p = BLACK) (outputBuffer s'))
  /\ (available (serve_bytes step_call) && available (serve_ints step_call) = false ->
      exists s', nativeProcessFrame (lib := Plain.lib) 4 4 step_call = Val (-1) s')
  /\ (forall e,
        available (serve_bytes step_call) && available (serve_ints step_call) = true ->
        pipeline (lib := Plain.lib) (frame_header 4 4 (yuvData step_call))
          = Throw e ->
        exists s', nativeProcessFrame (lib := Plain.lib) 4 4 step_call = Val (-1) s')
  /\ (forall edgesMat e,
        available (serve_bytes step_call) && available (serve_ints step_call) = true ->
        pipeline (lib := Plain.lib) (frame_header 4 4 (yuvData step_call))
          = Ok edgesMat ->
        gray2rgba edgesMat = Throw e ->
        exists s', nativeProcessFrame (lib := Plain.lib) 4 4 step_call = Val (-1) s').
Proof.
  apply (C3_valid_call_returns_two_valued_output (lib := Plain.lib)
           4 4 step_call);
    first [ lia | reflexivity ].
Defined.

(** The first part of C3 at work: on the step frame the stages of
    [Plain.lib] return [step_mask], which meets every premise, and the call
    returns 0. *)
Example step_call_meets_the_premises :
  available (serve_bytes step_call) && available (serve_ints step_call) = true /\
  pipeline (lib := Plain.lib) (frame_header 4 4 (yuvData step_call))
    = Ok step_mask /\
  mat_type step_mask = CV_8UC1 /\
  mat_rows step_mask = 4 /\ mat_cols step_mask = 4 /\
  Z.of_nat (length (mat_data step_mask)) = 4 * 4.
Proof. repeat split; vm_compute; reflexivity. Qed.

Lemma C4_witness :
  (0 = 0 \/ 4 = 0) /\
  exists s', nativeProcessFrame (lib := Plain.lib) 0 4 empty_call = Val (-1) s'.
Proof.
  assert (Hz : 0 = 0 \/ 4 = 0) by (left; reflexivity).
  split; [exact Hz|].
  exact (C4_zero_dimension_returns_failure (lib := Plain.lib)
           0 4 empty_call Plain_rejects_empty Hz).
Defined.

Lemma C5_witness :
  exists s',
    nativeProcessFrame (lib := Plain.lib) 1 2 narrow_call = Val (-1) s' /\
    held s' = IntElems :: ByteElems :: held narrow_call /\
    releases (trace s') = releases (trace narrow_call).
Proof.
  apply (C5_views_outlive_a_thrown_stage (lib := Plain.lib) 1 2 narrow_call
           (frame_header 1 2 (yuvData narrow_call))
           (CvException "sz.width % 2 == 0 && sz.height % 3 == 0"));
    vm_compute; reflexivity.
Defined.

Lemma C6_witness :
  exists s',
    nativeProcessFrame (lib := Plain.lib) 2 2 starved_call = Val (-1) s' /\
    cv_calls (trace s') = cv_calls (trace starved_call).
Proof.
  apply (C6_unavailable_buffer_returns_failure (lib := Plain.lib)
           2 2 starved_call).
  right. reflexivity.
Defined.

Lemma C7_witness :
  nativeProcessFrame (lib := Plain.lib) 4 4 step_call = Val 0 step_done /\
  yuvData step_done = yuvData step_call.
Proof.
  assert (Hrun : nativeProcessFrame (lib := Plain.lib) 4 4 step_call
                 = Val 0 step_done) by (vm_compute; reflexivity).
  split; [exact Hrun|].
  exact (C7_frame_array_is_unchanged (lib := Plain.lib)
           4 4 step_call 0 step_done Hrun).
Defined.

(** C8 (as stated) does not hold: the library calls of a successful call are
    not the four stages alone; the gray-to-RGBA expansion follows them,
    before the loop. *)
Lemma C8_counterexample :
  ~ (forall (lib : ImgProc) (w h : Z) (s s' : jni),
       nativeProcessFrame w h s = Val 0 s' ->
       cv_calls (trace s') = cv_calls (trace s) ++ four_stages).
Proof.
  intros Hclaim.
  pose proof (Hclaim Plain.lib 4 4 step_call step_done step_call_returns)
    as Hcalls.
  vm_compute in Hcalls. discriminate Hcalls.
Qed.

Lemma C8_witness :
  nativeProcessFrame (lib := Plain.lib) 4 4 step_call = Val 0 step_done /\
  exists yuvMat bgrMat grayMat blurredMat edgesMat rgbaMat,
    Mat_over (yuv_rows 4) 4 CV_8UC1 (yuvData step_call) = Some yuvMat /\
    yuv2bgr_nv21 (ImgProc := Plain.lib) yuvMat = Ok bgrMat /\
    bgr2gray (ImgProc := Plain.lib) bgrMat = Ok grayMat /\
    gaussian_blur (ImgProc := Plain.lib) grayMat (mkSize 5 5) (3 # 2)%Q
      = Ok blurredMat /\
    canny (ImgProc := Plain.lib) blurredMat (50 # 1)%Q (150 # 1)%Q
      = Ok edgesMat /\
    gray2rgba edgesMat = Ok rgbaMat /\
    cv_calls (trace step_done) =
      cv_calls (trace step_call) ++ four_stages ++ [CallCvtColor COLOR_GRAY2RGBA] /\
    copy_loop (mat_data rgbaMat) Direct 0 (pixelCount 4 4) step_call
      = Val tt (set_outputBuffer (outputBuffer step_done) step_call) /\
    forall i, (i < pixelCount 4 4)%nat ->
      exists v,
        read_int (mat_data rgbaMat) i = Some v /\
        outputBuffer step_done !! i = Some (if v >? 0 then WHITE else BLACK).
Proof.
  assert (Hrun : nativeProcessFrame (lib := Plain.lib) 4 4 step_call
                 = Val 0 step_done) by (vm_compute; reflexivity).
  split; [exact Hrun|].
  exact (C8_four_stages_then_expansion (lib := Plain.lib)
           4 4 step_call step_done Hrun).
Defined.

Lemma step_call_starved_returns :
  nativeProcessFrame (lib := Plain.lib) 4 4 step_call_starved
  = Val (-1) step_starved_done.
Proof. vm_compute. reflexivity. Qed.

(** C9 (as stated) does not hold: the same frame, the same dimensions and a
    fresh output array each, but in the second call the VM cannot hand out
    the output array: the first call returns 0 and fills its array, the
    second returns -1 and leaves its array zero. *)
Lemma C9_counterexample :
  ~ (forall (lib : ImgProc) (w h : Z) (s1 s2 : jni),
       yuvData s1 = yuvData s2 ->
       outputBuffer s1 = outputBuffer s2 ->
       match nativeProcessFrame w h s1, nativeProcessFrame w h s2 with
       | Val r1 s1', Val r2 s2' =>
           r1 = r2 /\ outputBuffer s1' = outputBuffer s2'
       | Undefined, Undefined => True
       | _, _ => False
       end).
Proof.
  intros Hclaim.
  pose proof (Hclaim Plain.lib 4 4 step_call step_call_starved
                eq_refl eq_refl) as Hsame.
  rewrite step_call_returns, step_call_starved_returns in Hsame.
  destruct Hsame as [Hstatus _]. discriminate Hstatus.
Qed.

Lemma C9_witness :
  match nativeProcessFrame (lib := Plain.lib) 4 4 step_call,
        nativeProcessFrame (lib := Plain.lib) 4 4 step_call_again with
  | Val r1 s1', Val r2 s2' => r1 = r2 /\ outputBuffer s1' = outputBuffer s2'
  | Undefined, Undefined => True
  | _, _ => False
  end.
Proof.
  apply (C9_calls_are_deterministic (lib := Plain.lib)
           4 4 step_call step_call_again); reflexivity.
Defined.

Lemma C10_witness :
  exists s',
    nativeProcessFrame (lib := Plain.lib) 2 2 starved_call = Val (-1) s' /\
    outputBuffer s' = outputBuffer starved_call /\
    releases (trace s') =
      releases (trace starved_call) ++ abort_obtained starved_call /\
    Forall (fun rm => rm.2 = JNI_ABORT) (abort_obtained starved_call).
Proof.
  apply (C10_early_exit_leaves_output_untouched (lib := Plain.lib)
           2 2 starved_call).
  reflexivity.
Defined.

(* ===================================================================== *)
(** ** What a call leaves behind *)
(* ===================================================================== *)

Lemma error_logs_app t1 t2 :
  error_logs (t1 ++ t2) = error_logs t1 ++ error_logs t2.
Proof.
  induction t1 as [|[c|r m|msg] t1 IH]; simpl; by rewrite ?IH.
Qed.

(** Reads the trace and the service of a final state off its construction. *)
Ltac epilogue Hb Hi :=
  unfold five_calls, four_stages, failure_message; cbn;
  rewrite ?Hb, ?Hi, ?cv_calls_app, ?error_logs_app; cbn;
  rewrite ?app_nil_r, <- ?app_assoc; cbn;
  first [ done | lia | by eauto 6 | by (split; intros; (done || lia)) ].

(** Closes a failing exit that made [k] library calls. *)
Ltac failing k Hb Hi :=
  try match goal with
      | |- finish _ (match ?e with CvException _ => _ | OtherException => _ end _) =>
          destruct e
      end;
  let m := lazymatch goal with
           | |- finish _ (bind (LOGE ?m) _ _) => m
           | |- _ => constr:("Failed to get array elements"%string)
           end in
  cbn; eapply (finish_failure _ _ m k); epilogue Hb Hi.

Section Epilogue.

Context `{lib : ImgProc}.

Lemma nativeProcessFrame_finish w h s : finish s (nativeProcessFrame w h s).
Proof.
  unfold nativeProcessFrame, try_catch.
  unfold bind at 1. unfold GetByteArrayElements.
  destruct (serve_bytes s) eqn:Hb.
  { unfold bind at 1. unfold GetIntArrayElements.
    destruct (serve_ints s) eqn:Hi; failing 0%nat Hb Hi. }
  all: unfold bind at 1; unfold GetIntArrayElements;
    cbn [serve_ints set_held set_yuv_copy].
  all: destruct (serve_ints s) eqn:Hi; [ failing 0%nat Hb Hi | | ].
  all: cbn [is_null orb].
  all: unfold bind at 1; unfold Mat_ctor;
    cbn [bytes_at yuvData set_held set_yuv_copy set_out_copy yuv_copy].
  all: destruct (Mat_over _ w CV_8UC1 (yuvData s)) as [yuvMat|];
    [ | apply finish_undefined ].
  all: unfold cvtColor, GaussianBlur, Canny; cbn [cvtColor_pure].
  all: rewrite bind_invoke;
    destruct (yuv2bgr_nv21 yuvMat) as [bgrMat|e]; cbv beta iota;
    [ | failing 1%nat Hb Hi ].
  all: rewrite bind_invoke;
    destruct (bgr2gray bgrMat) as [grayMat|e]; cbv beta iota;
    [ | failing 2%nat Hb Hi ].
  all: rewrite bind_invoke;
    destruct (gaussian_blur grayMat (mkSize 5 5) (3 # 2)%Q)
      as [blurredMat|e]; cbv beta iota;
    [ | failing 3%nat Hb Hi ].
  all: rewrite bind_invoke;
    destruct (canny blurredMat (50 # 1)%Q (150 # 1)%Q)
      as [edgesMat|e]; cbv beta iota;
    [ | failing 4%nat Hb Hi ].
  all: rewrite bind_invoke;
    destruct (gray2rgba edgesMat) as [rgbaMat|e] eqn:H5; cbv beta iota;
    [ | failing 5%nat Hb Hi ].
  all: rewrite (gray2rgba_data _ _ H5).
  all: unfold bind at 1; erewrite copy_loop_rgba by reflexivity.
  all: destruct (decide (_ = 0 \/ _)%nat); [ | apply finish_undefined ].
  all: cbn; apply finish_success; epilogue Hb Hi.
Qed.

End Epilogue.

(* ===================================================================== *)
(** ** The loop on arbitrary pixel data *)
(* ===================================================================== *)

Lemma wrap_high v : 2 ^ 31 <= v < 2 ^ 32 -> Jint.wrap v = v - 2 ^ 32.
Proof.
  intros Hv. unfold Jint.wrap.
  rewrite <- (Z.mod_unique (v + 2 ^ 31) (2 ^ 32) 1 (v + 2 ^ 31 - 2 ^ 32)); lia.
Qed.

Lemma byte_zero (b : byte) : Z.of_N (Byte.to_N b) = 0 <-> b = x00.
Proof.
  split; [|by intros ->].
  intros Hz. pose proof (Byte.of_to_N b) as Hb.
  replace (Byte.to_N b) with 0%N in Hb by lia.
  cbn in Hb. congruence.
Qed.

(** X1: the test [pixel > 0] of the loop holds exactly for a pixel whose
    alpha byte (the fourth, most significant one) is below 128 and whose
    four bytes are not all zero. *)
Theorem X1_pixel_test_reads_the_alpha_bit b0 b1 b2 b3 :
  0 < Jint.of_bytes_le b0 b1 b2 b3 <->
  Z.of_N (Byte.to_N b3) < 128 /\
  ~ (b0 = x00 /\ b1 = x00 /\ b2 = x00 /\ b3 = x00).
Proof.
  unfold Jint.of_bytes_le.
  pose proof (byte_range b0). pose proof (byte_range b1).
  pose proof (byte_range b2). pose proof (byte_range b3).
  rewrite <- !byte_zero.
  destruct (Z_lt_dec (Z.of_N (Byte.to_N b3)) 128) as [Hlow|Hhigh].
  - rewrite wrap_id by (unfold Jint.in_range; lia). lia.
  - rewrite wrap_high by lia. lia.
Qed.

Lemma read_int_is_Some (d : list byte) (i : nat) :
  is_Some (read_int d i) <-> (4 * (i + 1) <= length d)%nat.
Proof.
  unfold read_int. split.
  - intros [v Hv].
    destruct (d !! (4 * i + 3)%nat) as [b3|] eqn:H3.
    + apply lookup_lt_Some in H3. lia.
    + by repeat case_match.
  - intros Hlen.
    destruct (lookup_lt_is_Some_2 d (4 * i)%nat) as [b0 ->]; [lia|].
    destruct (lookup_lt_is_Some_2 d (4 * i + 1)%nat) as [b1 ->]; [lia|].
    destruct (lookup_lt_is_Some_2 d (4 * i + 2)%nat) as [b2 ->]; [lia|].
    destruct (lookup_lt_is_Some_2 d (4 * i + 3)%nat) as [b3 ->]; [lia|].
    eauto.
Qed.

Section LoopContract.

Context `{lib : ImgProc}.

(** X2: over any pixel data with room for it in both the data and the
    array, the loop ends, stores 0xFFFFFFFF in each visited cell whose
    pixel is a positive [int] and 0xFF000000 in each other visited cell,
    and leaves every cell outside the visited range, and the length of the
    array, as they were. *)
Theorem X2_loop_writes_by_sign (d : list byte) (p : elems) (i n : nat)
        (s : jni) (a : list Z) :
  ints_at p s = Some a ->
  (4 * (i + n) <= length d)%nat ->
  (i + n <= length a)%nat ->
  exists a',
    copy_loop d p i n s = Val tt (set_ints_at p a' s) /\
    length a' = length a /\
    forall j,
      ((i <= j < i + n)%nat ->
         exists v, read_int d j = Some v /\
                   a' !! j = Some (if v >? 0 then WHITE else BLACK)) /\
      (~ (i <= j < i + n)%nat -> a' !! j = a !! j).
Proof.
  revert i s a. induction n as [|n IH]; intros i s a Ha Hd Hroom.
  - exists a. cbn [copy_loop]. unfold ret.
    rewrite set_ints_at_same by done.
    split; [done|]. split; [done|]. intros j. split; [lia | done].
  - assert (Hp : p <> Null) by (by destruct p).
    destruct (proj2 (read_int_is_Some d i)) as [v Hv]; [lia|].
    set (c := if v >? 0 then WHITE else BLACK).
    destruct (IH (S i) (set_ints_at p (<[i := c]> a) s) (<[i := c]> a))
      as (a' & Hrun & Hlen & Hcells);
      [by apply ints_at_set | lia | rewrite length_insert; lia |].
    exists a'. split; [|split].
    + cbn [copy_loop]. unfold bind at 1, load_int. rewrite Hv.
      assert (Hstore : store_int p i c s
                       = Val tt (set_ints_at p (<[i := c]> a) s)).
      { unfold store_int. rewrite Ha. by rewrite decide_True by lia. }
      unfold bind.
      replace (if v >? 0 then store_int p i WHITE else store_int p i BLACK)
        with (store_int p i c) by (subst c; by destruct (v >? 0)).
      rewrite Hstore, Hrun. by rewrite set_ints_at_twice.
    + by rewrite Hlen, length_insert.
    + intros j. destruct (Hcells j) as [Hin Hout]. split.
      * intros Hj. destruct (decide (j = i)) as [->|Hne].
        -- exists v. split; [done|].
           rewrite Hout by lia. apply list_lookup_insert_eq. lia.
        -- apply Hin. lia.
      * intros Hj. rewrite Hout by lia.
        apply list_lookup_insert_ne. lia.
Qed.

End LoopContract.

(* ===================================================================== *)
(** ** Further properties of a call *)
(* ===================================================================== *)

(** Inversion of the outcome of a call along [finish]. *)
Ltac along_finish Hrun :=
  match type of Hrun with
  | @nativeProcessFrame _ ?w ?h ?s = _ =>
      let F := fresh "F" in
      pose proof (nativeProcessFrame_finish w h s) as F;
      rewrite Hrun in F; inversion F; subst; clear F
  end.

Lemma blacken_twice (n : nat) (a : list Z) :
  (n = 0 \/ n <= length a)%nat ->
  blacken 0 n (blacken 0 n a) = blacken 0 n a.
Proof.
  intros [->|Hn]; [by rewrite !blacken_nothing|].
  apply list_eq. intros j.
  rewrite !lookup_blacken by (rewrite ?length_blacken; lia).
  by case_decide.
Qed.

Lemma Mat_over_shape rows cols t (buf : list byte) m :
  Mat_over rows cols t buf = Some m ->
  mat_rows m = rows /\ mat_cols m = cols /\ mat_type m = t.
Proof.
  unfold Mat_over. repeat case_match; intros [= <-]; done.
Qed.

(** For an odd height the header has [3k+1] rows, for an even one [3k]. *)
Lemma yuv_rows_mod_3 h :
  0 <= h -> h + h / 2 < 2 ^ 31 ->
  yuv_rows h mod 3 = h mod 2.
Proof.
  intros Hh Hsmall. rewrite yuv_rows_small by done.
  pose proof (Z.div_mod h 2 ltac:(lia)) as Hdm.
  pose proof (Z.mod_pos_bound h 2 ltac:(lia)) as Hr.
  symmetry. apply (Z.mod_unique _ 3 (h / 2)); lia.
Qed.

Section More.

Context `{lib : ImgProc}.

(** X3: a call that returns -1, on the early exit or from a catch block,
    has stored nothing: the output array is as it was before the call. *)
Theorem X3_failure_leaves_output_array w h s s' :
  nativeProcessFrame w h s = Val (-1) s' ->
  outputBuffer s' = outputBuffer s.
Proof. intros Hrun. by along_path Hrun. Qed.

(** X4: a call that returns never changes the length of the output array,
    nor any cell from index [width*height] on: an array longer than the
    image keeps its tail. *)
Theorem X4_cells_beyond_the_image_are_kept w h s r s' :
  nativeProcessFrame w h s = Val r s' ->
  length (outputBuffer s') = length (outputBuffer s) /\
  forall j, (pixelCount w h <= j)%nat ->
    outputBuffer s' !! j = outputBuffer s !! j.
Proof.
  intros Hrun. along_path Hrun;
    try (match goal with Ho : outputBuffer s' = _ |- _ => by rewrite Ho end).
  match goal with
  | Ho : outputBuffer s' = _, Hfit : (_ \/ _)%nat |- _ =>
      rewrite Ho; destruct Hfit as [->|[_ Hroom]]
  end.
  - by rewrite blacken_nothing.
  - split; [by apply length_blacken|].
    intros j Hj. rewrite lookup_blacken by lia. by rewrite decide_False by lia.
Qed.

(** X5: a call returns 0 exactly when both views are handed out, the header
    fits the frame, the four stages and the expansion return, and either
    there is no pixel to copy or both the mask and the output array have
    [width*height] cells. *)
Theorem X5_success_condition w h s :
  (exists s', nativeProcessFrame w h s = Val 0 s') <->
  available (serve_bytes s) && available (serve_ints s) = true /\
  exists yuvMat edgesMat rgbaMat,
    Mat_over (yuv_rows h) w CV_8UC1 (yuvData s) = Some yuvMat /\
    pipeline yuvMat = Ok edgesMat /\
    gray2rgba edgesMat = Ok rgbaMat /\
    (pixelCount w h = 0
     \/ pixelCount w h <= length (mat_data edgesMat)
        /\ pixelCount w h <= length (outputBuffer s))%nat.
Proof.
  split.
  - intros [s' Hrun]. along_path Hrun. eauto 10.
  - intros (Hav & yuvMat & edgesMat & rgbaMat & Hm & Hp & Hx & Hfit).
    destruct (nativeProcessFrame w h s) as [r s'| |] eqn:Hrun;
      along_path Hrun; same_run; try congruence; eauto.
Qed.

(** X6: the loop checks no bound.  When the dimensions do not overflow an
    [int] and the header fits the frame, a call is undefined exactly when
    both views are handed out, every library call returns, there are pixels
    to copy, and the mask or the output array has fewer than
    [width*height] cells; in every other case the call returns. *)
Theorem X6_undefined_condition w h s yuvMat :
  Jint.in_range (h + h ÷ 2) ->
  Jint.in_range (w * h) ->
  Mat_over (yuv_rows h) w CV_8UC1 (yuvData s) = Some yuvMat ->
  (nativeProcessFrame w h s = Undefined <->
   available (serve_bytes s) && available (serve_ints s) = true /\
   exists edgesMat rgbaMat,
     pipeline yuvMat = Ok edgesMat /\
     gray2rgba edgesMat = Ok rgbaMat /\
     (pixelCount w h <> 0)%nat /\
     (length (mat_data edgesMat) < pixelCount w h
      \/ length (outputBuffer s) < pixelCount w h)%nat)
  /\ (nativeProcessFrame w h s <> Undefined ->
      exists r s', nativeProcessFrame w h s = Val r s').
Proof.
  intros _ _ Hm. split; [split|].
  - intros Hrun. along_path Hrun; same_run; try congruence.
    split; [done|]. do 2 eexists. repeat (split; [eassumption|]). lia.
  - intros (Hav & edgesMat & rgbaMat & Hp & Hx & Hpc & Hshort).
    destruct (nativeProcessFrame w h s) as [r s'| |] eqn:Hrun;
      along_path Hrun; same_run; try congruence; lia.
  - intros Hdef.
    destruct (nativeProcessFrame w h s) as [r s'| |] eqn:Hrun;
      [eauto | by along_path Hrun | done].
Qed.

(** X7: the only status codes are 0 and -1, and no exception leaves the
    call: both catch blocks return. *)
Theorem X7_status_is_0_or_minus_1 w h s :
  match nativeProcessFrame w h s with
  | Val r _ => r = 0 \/ r = -1
  | Exc _ _ => False
  | Undefined => True
  end.
Proof.
  destruct (nativeProcessFrame w h s) as [r s'| |] eqn:Hrun;
    along_path Hrun; auto.
Qed.

(** X8: a call that returns 0 has released both views, the frame first and
    without committing, the output array second and committing, and holds
    exactly the views that were held before it. *)
Theorem X8_success_releases_both_views w h s s' :
  nativeProcessFrame w h s = Val 0 s' ->
  held s' = held s /\
  releases (trace s') =
    releases (trace s) ++ [(ByteElems, JNI_ABORT); (IntElems, MODE_0)].
Proof. intros Hrun. by along_path Hrun. Qed.

(** X9: when one of the two views cannot be handed out the call gives back
    the other one if it got it: it returns -1 holding exactly the views
    that were held before. *)
Theorem X9_early_exit_holds_no_view w h s :
  available (serve_bytes s) && available (serve_ints s) = false ->
  exists s',
    nativeProcessFrame w h s = Val (-1) s' /\ held s' = held s.
Proof.
  intros Hav.
  destruct (nativeProcessFrame w h s) as [r s'| |] eqn:Hrun;
    along_path Hrun; try congruence.
  by exists s'.
Qed.

(** X10: a call that returns 0 logs no error, and a call that returns -1
    logs exactly one, which is one of the three messages of the source. *)
Theorem X10_one_error_message_per_failure w h s r s' :
  nativeProcessFrame w h s = Val r s' ->
  (r = 0 /\ error_logs (trace s') = error_logs (trace s))
  \/ (r = -1 /\ exists msg,
        failure_message msg /\
        error_logs (trace s') = error_logs (trace s) ++ [msg]).
Proof.
  intros Hrun. along_finish Hrun; [by left|].
  right. split; [done|]. eauto.
Qed.

(** X11: the library calls of a call that returns -1 are the first [k] of
    the five, in the order of the source: none on the early exit, and no
    stage after the one that threw. *)
Theorem X11_library_calls_stop_at_the_throw w h s s' :
  nativeProcessFrame w h s = Val (-1) s' ->
  exists k,
    (k <= 5)%nat /\
    cv_calls (trace s') = cv_calls (trace s) ++ take k five_calls /\
    (k = 0%nat <->
     available (serve_bytes s) && available (serve_ints s) = false).
Proof.
  intros Hrun. along_finish Hrun. eauto.
Qed.

(** X12: if the colour conversion rejects a source with an odd number of
    columns or a number of rows that is not a multiple of three, no call
    with an odd width or an odd height returns 0: for an odd height the
    header has [height + height/2 = 3k+1] rows. *)
Theorem X12_odd_dimension_never_succeeds w h s s' :
  (forall m, Z.odd (mat_cols m) = true \/ mat_rows m mod 3 <> 0 ->
             exists e, yuv2bgr_nv21 m = Throw e) ->
  0 <= h -> h + h / 2 < 2 ^ 31 ->
  Z.odd w = true \/ Z.odd h = true ->
  nativeProcessFrame w h s <> Val 0 s'.
Proof.
  intros Hreject Hh Hsmall Hodd Hrun. along_path Hrun.
  match goal with
  | Hm : Mat_over _ _ _ _ = Some ?m, Hp : pipeline ?m = Ok _ |- _ =>
      destruct (Mat_over_shape _ _ _ _ _ Hm) as (Hr & Hc & _);
      destruct (Hreject m) as [e He];
      [ | apply pipeline_first_stage_throws in He; congruence ]
  end.
  destruct Hodd as [Hw|Hho]; [left; congruence | right].
  rewrite Hr, yuv_rows_mod_3 by done.
  rewrite Z.odd_spec in Hho. destruct Hho as [k ->].
  rewrite Z.add_comm, Z.mul_comm, Z.mod_add by lia. done.
Qed.

(** X13: for an even height and a frame of [width*height*3/2] bytes the
    header has [3*(height/2)] rows and spans the whole frame: the library
    is handed every byte of the frame, luma and chroma. *)
Theorem X13_even_height_header_spans_the_frame w h (frame : list byte) :
  0 < w -> 0 < h -> Z.even h = true ->
  Z.of_nat (length frame) = (w * h * 3) ÷ 2 ->
  Z.of_nat (length frame) < 2 ^ 31 ->
  Mat_over (yuv_rows h) w CV_8UC1 frame
  = Some (mkMat (3 * (h / 2)) w CV_8UC1 frame).
Proof.
  intros Hw Hh Heven Hlen Hjint.
  destruct (Mat_over_valid_frame w h frame) as [Hrows ->]; try done.
  rewrite Z.even_spec in Heven. destruct Heven as [k ->].
  assert (Hk : 2 * k / 2 = k) by (rewrite Z.mul_comm; apply Z.div_mul; lia).
  unfold frame_header. rewrite Hrows, Hk. cbn [channels].
  assert (Hbytes : Z.of_nat (length frame) = (2 * k + k) * w * 1).
  { rewrite Hlen, Z.quot_div_nonneg by nia.
    replace (w * (2 * k) * 3) with ((3 * k * w) * 2) by lia.
    rewrite Z.div_mul by lia. lia. }
  rewrite <- Hbytes, Nat2Z.id, firstn_all.
  do 2 f_equal. lia.
Qed.

End More.

(* ===================================================================== *)
(** ** Calls in sequence *)
(* ===================================================================== *)

(** [nativeInit] has nothing that can throw: it answers [JNI_TRUE] in every
    environment and leaves the environment as it was. *)
Lemma nativeInit_true (CV_VERSION : string) (s : jni) :
  nativeInit CV_VERSION s = Val true s.
Proof. reflexivity. Qed.

Lemma leaked_shift n (l : list resource) :
  leaked n ++ IntElems :: ByteElems :: l = leaked (S n) ++ l.
Proof.
  induction n as [|n IH]; [done|].
  cbn [leaked app] in *. by rewrite IH.
Qed.

Section Sequences.

Context `{lib : ImgProc}.

(** One call in which a stage throws: what the next call starts from. *)
Lemma thrown_call_step w h s yuvMat e :
  available (serve_bytes s) && available (serve_ints s) = true ->
  Mat_over (yuv_rows h) w CV_8UC1 (yuvData s) = Some yuvMat ->
  pipeline yuvMat = Throw e ->
  exists s',
    nativeProcessFrame w h s = Val (-1) s' /\
    held s' = IntElems :: ByteElems :: held s /\
    yuvData s' = yuvData s /\
    outputBuffer s' = outputBuffer s /\
    serve_bytes s' = serve_bytes s /\
    serve_ints s' = serve_ints s.
Proof.
  intros Hav Hm Hp.
  destruct (nativeProcessFrame w h s) as [r s'| |] eqn:Hrun;
    along_path Hrun; same_run; try congruence.
  along_finish Hrun. exists s'. done.
Qed.

(** X14: the views a catch block leaves held add up: [n] calls in a row on
    a frame one of whose stages throws all return, and end with [2n] views
    held on top of those held at the start, the output array untouched. *)
Theorem X14_failing_calls_pile_up_views n w h s yuvMat e :
  available (serve_bytes s) && available (serve_ints s) = true ->
  Mat_over (yuv_rows h) w CV_8UC1 (yuvData s) = Some yuvMat ->
  pipeline yuvMat = Throw e ->
  exists s',
    frames n w h s = Val tt s' /\
    held s' = leaked n ++ held s /\
    length (held s') = (2 * n + length (held s))%nat /\
    outputBuffer s' = outputBuffer s.
Proof.
  revert s. induction n as [|n IH]; intros s Hav Hm Hp.
  - exists s. cbn. repeat split; lia.
  - destruct (thrown_call_step w h s yuvMat e Hav Hm Hp)
      as (s1 & Hrun & Hheld & Hy & Ho & Hsb & Hsi).
    destruct (IH s1) as (s' & Hrest & Hheld' & Hlen' & Ho');
      [by rewrite Hsb, Hsi | by rewrite Hy | done |].
    exists s'. cbn [frames]. unfold bind. rewrite Hrun.
    split; [done|]. split; [|split].
    + rewrite Hheld', Hheld. apply leaked_shift.
    + rewrite Hlen', Hheld. cbn [length]. lia.
    + congruence.
Qed.

(** X15: a call that returned 0 can be made again on the state it left: the
    second call returns 0 as well, leaves the output array as the first
    call left it, and in the end the views held are those held before the
    first call. *)
Theorem X15_second_call_repeats_the_first w h s s1 :
  nativeProcessFrame w h s = Val 0 s1 ->
  exists s2,
    nativeProcessFrame w h s1 = Val 0 s2 /\
    outputBuffer s2 = outputBuffer s1 /\
    held s2 = held s.
Proof.
  intros Hrun. along_finish Hrun. along_path Hrun.
  match goal with
  | Hfit : (_ \/ _)%nat, Ho : outputBuffer s1 = _ |- _ =>
      assert (Hfit1 : (pixelCount w h = 0 \/ pixelCount w h <= length (outputBuffer s))%nat)
        by (destruct Hfit as [?|[_ ?]]; auto);
      assert (Hlen : length (outputBuffer s1) = length (outputBuffer s))
        by (rewrite Ho; destruct Hfit1 as [->|?];
            [by rewrite blacken_nothing | by apply length_blacken]);
      assert (Hsame : blacken 0 (pixelCount w h) (outputBuffer s1)
                      = outputBuffer s1)
        by (rewrite Ho; by apply blacken_twice)
  end.
  destruct (nativeProcessFrame w h s1) as [r s2| |] eqn:Hrun2;
    along_path Hrun2;
    repeat match goal with
           | H : serve_bytes s1 = _ |- _ => rewrite H in *; clear H
           | H : serve_ints s1 = _ |- _ => rewrite H in *; clear H
           | H : yuvData s1 = _ |- _ => rewrite H in *; clear H
           end;
    same_run; try congruence.
  exists s2. split; [done|]. split; congruence.
Qed.

(** X16: the output of a successful call does not depend on the frame: two
    calls with the same dimensions that both return 0, on any two frames,
    turn equal output arrays into equal output arrays. *)
Theorem X16_output_does_not_depend_on_the_frame w h s1 s2 s1' s2' :
  outputBuffer s1 = outputBuffer s2 ->
  nativeProcessFrame w h s1 = Val 0 s1' ->
  nativeProcessFrame w h s2 = Val 0 s2' ->
  outputBuffer s1' = outputBuffer s2'.
Proof.
  intros Ho Hrun1 Hrun2. along_path Hrun1. along_path Hrun2. congruence.
Qed.

End Sequences.

(* ===================================================================== *)
(** ** Further runs on concrete frames *)
(* ===================================================================== *)

Lemma long_call_returns :
  nativeProcessFrame (lib := Plain.lib) 4 4 long_call = Val 0 long_done.
Proof. vm_compute. reflexivity. Qed.

(** The loop on a pixel with alpha 127 and a pixel with alpha 255. *)
Example loop_on_two_pixels :
  copy_loop two_pixels Direct 0 2 loop_call
  = Val tt (set_ints_at Direct [WHITE; BLACK; 5] loop_call).
Proof. reflexivity. Qed.

Lemma Plain_rejects_odd m :
  Z.odd (mat_cols m) = true \/ mat_rows m mod 3 <> 0 ->
  exists e, yuv2bgr_nv21 (ImgProc := Plain.lib) m = Throw e.
Proof.
  intros Hodd. cbn. unfold Plain.nv21.
  destruct (mat_empty m); [eauto|].
  destruct Hodd as [Hc|Hr].
  - rewrite <- Z.negb_odd, Hc. cbn. rewrite orb_true_r. cbn. eauto.
  - apply Z.eqb_neq in Hr. rewrite Hr. cbn. rewrite !orb_true_r. eauto.
Qed.

Lemma X2_witness :
  exists a',
    copy_loop two_pixels Direct 0 2 loop_call
    = Val tt (set_ints_at Direct a' loop_call) /\
    length a' = length [5; 5; 5] /\
    forall j,
      ((0 <= j < 0 + 2)%nat ->
         exists v, read_int two_pixels j = Some v /\
                   a' !! j = Some (if v >? 0 then WHITE else BLACK)) /\
      (~ (0 <= j < 0 + 2)%nat -> a' !! j = [5; 5; 5] !! j).
Proof.
  apply (X2_loop_writes_by_sign two_pixels Direct 0 2 loop_call [5; 5; 5]);
    [reflexivity | cbn; lia | cbn; lia].
Defined.

Lemma X3_witness :
  nativeProcessFrame (lib := Plain.lib) 1 2 narrow_call = Val (-1) narrow_done /\
  outputBuffer narrow_done = outputBuffer narrow_call.
Proof.
  assert (Hrun : nativeProcessFrame (lib := Plain.lib) 1 2 narrow_call
                 = Val (-1) narrow_done) by (vm_compute; reflexivity).
  split; [exact Hrun|].
  exact (X3_failure_leaves_output_array (lib := Plain.lib)
           1 2 narrow_call narrow_done Hrun).
Defined.

Lemma X4_witness :
  nativeProcessFrame (lib := Plain.lib) 4 4 long_call = Val 0 long_done /\
  length (outputBuffer long_done) = length (outputBuffer long_call) /\
  forall j, (pixelCount 4 4 <= j)%nat ->
    outputBuffer long_done !! j = outputBuffer long_call !! j.
Proof.
  assert (Hrun : nativeProcessFrame (lib := Plain.lib) 4 4 long_call
                 = Val 0 long_done) by (vm_compute; reflexivity).
  split; [exact Hrun|].
  exact (X4_cells_beyond_the_image_are_kept (lib := Plain.lib)
           4 4 long_call 0 long_done Hrun).
Defined.

Lemma X8_witness :
  nativeProcessFrame (lib := Plain.lib) 4 4 step_call = Val 0 step_done /\
  held step_done = held step_call /\
  releases (trace step_done) =
    releases (trace step_call) ++ [(ByteElems, JNI_ABORT); (IntElems, MODE_0)].
Proof.
  assert (Hrun : nativeProcessFrame (lib := Plain.lib) 4 4 step_call
                 = Val 0 step_done) by (vm_compute; reflexivity).
  split; [exact Hrun|].
  exact (X8_success_releases_both_views (lib := Plain.lib)
           4 4 step_call step_done Hrun).
Defined.

Lemma X9_witness :
  exists s',
    nativeProcessFrame (lib := Plain.lib) 2 2 starved_call = Val (-1) s' /\
    held s' = held starved_call.
Proof.
  apply (X9_early_exit_holds_no_view (lib := Plain.lib) 2 2 starved_call).
  reflexivity.
Defined.

Lemma X10_witness :
  (-1 = 0 /\ error_logs (trace narrow_done) = error_logs (trace narrow_call))
  \/ (-1 = -1 /\ exists msg,
        failure_message msg /\
        error_logs (trace narrow_done)
        = error_logs (trace narrow_call) ++ [msg]).
Proof.
  apply (X10_one_error_message_per_failure (lib := Plain.lib)
           1 2 narrow_call (-1) narrow_done).
  vm_compute. reflexivity.
Defined.

Lemma X11_witness :
  exists k,
    (k <= 5)%nat /\
    cv_calls (trace narrow_done)
    = cv_calls (trace narrow_call) ++ take k five_calls /\
    (k = 0%nat <->
     available (serve_bytes narrow_call) && available (serve_ints narrow_call)
     = false).
Proof.
  apply (X11_library_calls_stop_at_the_throw (lib := Plain.lib)
           1 2 narrow_call narrow_done).
  vm_compute. reflexivity.
Defined.

Lemma X12_witness :
  nativeProcessFrame (lib := Plain.lib) 2 3 odd_call <> Val 0 odd_call.
Proof.
  apply (X12_odd_dimension_never_succeeds (lib := Plain.lib)
           2 3 odd_call odd_call Plain_rejects_odd);
    [lia | reflexivity | right; reflexivity].
Defined.

Lemma X13_witness :
  Mat_over (yuv_rows 4) 4 CV_8UC1 step_frame
  = Some (mkMat (3 * (4 / 2)) 4 CV_8UC1 step_frame).
Proof.
  apply (X13_even_height_header_spans_the_frame 4 4 step_frame);
    first [ lia | reflexivity ].
Defined.

Lemma X14_witness :
  exists s',
    frames (lib := Plain.lib) 3 1 2 narrow_call = Val tt s' /\
    held s' = leaked 3 ++ held narrow_call /\
    length (held s') = (2 * 3 + length (held narrow_call))%nat /\
    outputBuffer s' = outputBuffer narrow_call.
Proof.
  apply (X14_failing_calls_pile_up_views (lib := Plain.lib) 3 1 2 narrow_call
           (frame_header 1 2 (yuvData narrow_call))
           (CvException "sz.width % 2 == 0 && sz.height % 3 == 0"));
    vm_compute; reflexivity.
Defined.

Lemma X15_witness :
  exists s2,
    nativeProcessFrame (lib := Plain.lib) 4 4 step_done = Val 0 s2 /\
    outputBuffer s2 = outputBuffer step_done /\
    held s2 = held step_call.
Proof.
  apply (X15_second_call_repeats_the_first (lib := Plain.lib)
           4 4 step_call step_done).
  vm_compute. reflexivity.
Defined.

Lemma X16_witness :
  outputBuffer step_done = outputBuffer flat_done.
Proof.
  apply (X16_output_does_not_depend_on_the_frame (lib := Plain.lib)
           4 4 step_call flat_call step_done flat_done);
    vm_compute; reflexivity.
Defined.

(** With an output array one cell short the sixteenth store is out of
    range. *)
Example short_call_is_undefined :
  nativeProcessFrame (lib := Plain.lib) 4 4 short_call = Undefined.
Proof. vm_compute. reflexivity. Qed.

Lemma X6_witness :
  (nativeProcessFrame (lib := Plain.lib) 4 4 short_call = Undefined <->
   available (serve_bytes short_call) && available (serve_ints short_call) = true /\
   exists edgesMat rgbaMat,
     pipeline (lib := Plain.lib) (frame_header 4 4 (yuvData short_call))
       = Ok edgesMat /\
     gray2rgba edgesMat = Ok rgbaMat /\
     (pixelCount 4 4 <> 0)%nat /\
     (length (mat_data edgesMat) < pixelCount 4 4
      \/ length (outputBuffer short_call) < pixelCount 4 4)%nat)
  /\ (nativeProcessFrame (lib := Plain.lib) 4 4 short_call <> Undefined ->
      exists r s', nativeProcessFrame (lib := Plain.lib) 4 4 short_call = Val r s').
Proof.
  apply (X6_undefined_condition (lib := Plain.lib) 4 4 short_call
           (frame_header 4 4 (yuvData short_call)));
    [ unfold Jint.in_range; change (4 + 4 ÷ 2) with 6; lia
    | unfold Jint.in_range; lia
    | vm_compute; reflexivity ].
Defined.
